(** * luna/todo-agent.py: the TODO.md reader, embedded and verified

    A shallow embedding of [TodoAgent] (src/luna/todo-agent.py): the line
    recognisers built on [re.match], the single-pass section builder, the
    summary dictionary, the report formatter and the file locator.

    Conventions of the embedding
    - a Python [str] is a list of Unicode code points ([uchar := N]);
    - [str.strip], [str.rstrip], [str.lstrip] and the regex class [\s] all
      use the same whitespace predicate (CPython's [Py_UNICODE_ISSPACE]);
    - [re.match] is a backtracking matcher over the fragment of regular
      expressions the source uses (anchors, single characters, classes,
      greedy bounded repetition of a class, capture groups, concatenation);
    - the file system is an explicit value passed to the functions that
      touch it; [print] on the error path is not modelled (it does not
      change the returned value). *)

From stdpp Require Import gmap strings list.
From Stdlib Require Import Ascii ZArith Lia.

Open Scope nat_scope.

(* ===================================================================== *)
(** ** Python strings *)
(* ===================================================================== *)

Module Py.

(** A code point. *)
Definition uchar := N.
(** A Python [str]. *)
Definition str := list uchar.

(** The code point of an ASCII character literal. *)
Definition chr (a : ascii) : uchar := N_of_ascii a.

(** An ASCII-only string literal as a [str]. *)
Fixpoint lit (s : string) : str :=
  match s with
  | String.EmptyString => []
  | String.String a s' => chr a :: lit s'
  end.

Definition NL : uchar := 10%N.

(** [Py_UNICODE_ISSPACE]: what [str.isspace], [str.strip] and the regex
    class [\s] (on [str] patterns) accept. *)
Definition is_space (c : uchar) : bool :=
  ((9 <=? c) && (c <=? 13) || (28 <=? c) && (c <=? 32)
   || (c =? 133) || (c =? 160) || (c =? 5760)
   || (8192 <=? c) && (c <=? 8202)
   || (c =? 8232) || (c =? 8233) || (c =? 8239) || (c =? 8287)
   || (c =? 12288))%N.

Fixpoint take_while (p : uchar -> bool) (s : str) : str :=
  match s with
  | c :: s' => if p c then c :: take_while p s' else []
  | [] => []
  end.

Fixpoint drop_while (p : uchar -> bool) (s : str) : str :=
  match s with
  | c :: s' => if p c then drop_while p s' else s
  | [] => []
  end.

(** [s.lstrip()] *)
Definition lstrip (s : str) : str := drop_while is_space s.
(** [s.rstrip()] *)
Definition rstrip (s : str) : str := rev (drop_while is_space (rev s)).
(** [s.strip()] *)
Definition strip (s : str) : str := lstrip (rstrip s).

(** [sep.join(parts)] *)
Fixpoint join (sep : str) (parts : list str) : str :=
  match parts with
  | [] => []
  | [p] => p
  | p :: ps => p ++ sep ++ join sep ps
  end.

(** [s * n] *)
Fixpoint repeat_str (s : str) (n : nat) : str :=
  match n with
  | 0 => []
  | S n' => s ++ repeat_str s n'
  end.

(** Truthiness of a [str]: [if s:] holds for a non-empty string. *)
Definition truthy (s : str) : bool :=
  match s with [] => false | _ :: _ => true end.

(** [str(n)] for a non-negative [int]. *)
Fixpoint digits_of_uint (d : Decimal.uint) : str :=
  match d with
  | Decimal.Nil => []
  | Decimal.D0 d' => 48%N :: digits_of_uint d'
  | Decimal.D1 d' => 49%N :: digits_of_uint d'
  | Decimal.D2 d' => 50%N :: digits_of_uint d'
  | Decimal.D3 d' => 51%N :: digits_of_uint d'
  | Decimal.D4 d' => 52%N :: digits_of_uint d'
  | Decimal.D5 d' => 53%N :: digits_of_uint d'
  | Decimal.D6 d' => 54%N :: digits_of_uint d'
  | Decimal.D7 d' => 55%N :: digits_of_uint d'
  | Decimal.D8 d' => 56%N :: digits_of_uint d'
  | Decimal.D9 d' => 57%N :: digits_of_uint d'
  end.

Definition str_of_N (n : N) : str := digits_of_uint (N.to_uint n).
Definition str_of_nat (n : nat) : str := str_of_N (N.of_nat n).

End Py.

Import Py.

(* ===================================================================== *)
(** ** [re.match] on the fragment the source uses *)
(* ===================================================================== *)

Module Re.

(** One-character classes: a literal, [\s], and [.] (anything but a
    newline, as no flag is given). *)
Inductive cclass :=
| Lit (c : uchar)
| Ws
| Dot.

Definition accepts (k : cclass) (c : uchar) : bool :=
  match k with
  | Lit x => (x =? c)%N
  | Ws => is_space c
  | Dot => negb (c =? NL)%N
  end.

Inductive regex :=
| Bos                                           (* [^] without MULTILINE  *)
| One (k : cclass)                              (* one character          *)
| Rep (k : cclass) (lo : nat) (hi : option nat) (* greedy [k{lo,hi}]      *)
| Grp (r : regex)                               (* a capture group        *)
| Cat (r1 r2 : regex).                          (* concatenation          *)

Definition star (k : cclass) : regex := Rep k 0 None.
Definition plus (k : cclass) : regex := Rep k 1 None.
Definition ch (a : ascii) : regex := One (Lit (chr a)).

Definition may_take (hi : option nat) : bool :=
  match hi with Some 0 => false | _ => true end.

(** Greedy repetition with backtracking: take as many characters of the
    class as allowed, then try the rest of the pattern; when that fails
    give the characters back one at a time, never below [lo]. *)
Fixpoint greedy {A} (k : cclass) (lo : nat) (hi : option nat) (s : str)
    (cont : str -> option A) : option A :=
  let stop := match lo with 0 => cont s | S _ => None end in
  match s with
  | c :: s' =>
      if accepts k c && may_take hi then
        match greedy k (pred lo) (pred <$> hi) s' cont with
        | Some r => Some r
        | None => stop
        end
      else stop
  | [] => stop
  end.

(** The text consumed between the position [s] and the later position
    [s'] (a suffix of [s]). *)
Definition consumed (s s' : str) : str := take (length s - length s') s.

(** The matcher, in continuation-passing style: [whole] is the subject,
    [s] what is left of it, [caps] the groups closed so far (the source's
    patterns have no nested groups, so groups close in the order of their
    numbers). *)
Fixpoint run (r : regex) (whole s : str) (caps : list str)
    (k : str -> list str -> option (list str)) : option (list str) :=
  match r with
  | Bos => if length s =? length whole then k s caps else None
  | One c =>
      match s with
      | x :: s' => if accepts c x then k s' caps else None
      | [] => None
      end
  | Rep c lo hi => greedy c lo hi s (fun s' => k s' caps)
  | Grp r' => run r' whole s caps (fun s' caps' => k s' (caps' ++ [consumed s s']))
  | Cat r1 r2 => run r1 whole s caps (fun s' caps' => run r2 whole s' caps' k)
  end.

(** [re.match(r, s)]: [None], or the match object, here the list of its
    groups 1, 2, ... *)
Definition re_match (r : regex) (s : str) : option (list str) :=
  run r s s [] (fun _ caps => Some caps).

(** [m.group(i)], for [i >= 1]. *)
Definition group (m : list str) (i : nat) : str := default [] (m !! (i - 1)).

End Re.

Import Re.

Infix "∙" := Cat (at level 60, right associativity).

(* ===================================================================== *)
(** ** The data model *)
(* ===================================================================== *)

Inductive TaskStatus := COMPLETED | IN_PROGRESS | PENDING | UNKNOWN.

Record Task := mkTask {
  content : str;
  status : TaskStatus;
  level : nat;
  line_number : nat
}.

(** The field [line_number] of the source is [sec_line_number] here: the
    name is taken by the field of [Task]. *)
Record TodoSection := mkSection {
  title : str;
  tasks : list Task;
  sec_line_number : nat
}.

(* ===================================================================== *)
(** ** The line recognisers *)
(* ===================================================================== *)

(** The common tail [\s*(.+)] of every pattern. *)
Definition rest_text : regex := star Ws ∙ Grp (plus Dot).

(** [^\s*-\s*\[m\]\s*(.+)] for a literal mark [m]. *)
Definition checkbox (m : regex) : regex :=
  Bos ∙ star Ws ∙ ch "-" ∙ star Ws ∙ ch "[" ∙ m ∙ ch "]" ∙ rest_text.

(** [^\s*b\s*(.+)] for a bullet character [b]. *)
Definition bullet (b : ascii) : regex :=
  Bos ∙ star Ws ∙ ch b ∙ rest_text.

Definition task_patterns : list (regex * TaskStatus) :=
  [ (checkbox (ch "x"), COMPLETED);
    (checkbox (ch "X"), COMPLETED);
    (checkbox (One Ws), PENDING);
    (checkbox (ch "~"), IN_PROGRESS);
    (checkbox (ch "o"), IN_PROGRESS);
    (bullet "-", PENDING);
    (bullet "*", PENDING);
    (bullet "+", PENDING) ].

(** The [for pattern, status in task_patterns] loop of [parse_task_line]. *)
Fixpoint first_match (pats : list (regex * TaskStatus)) (stripped_line : str)
    (lvl line_no : nat) : option Task :=
  match pats with
  | [] => None
  | (pattern, st) :: pats' =>
      match re_match pattern stripped_line with
      | Some m => Some (mkTask (strip (group m 1)) st lvl line_no)
      | None => first_match pats' stripped_line lvl line_no
      end
  end.

Definition parse_task_line (line : str) (line_no : nat) : option Task :=
  let stripped_line := rstrip line in
  if negb (truthy stripped_line) then None
  else
    let lvl := (length line - length (lstrip line)) / 2 + 1 in
    first_match task_patterns stripped_line lvl line_no.

(** [^(#{1,6})\s*(.+)] *)
Definition header_pattern : regex :=
  Bos ∙ Grp (Rep (Lit (chr "#")) 1 (Some 6)) ∙ star Ws ∙ Grp (plus Dot).

Definition parse_section_header (line : str) (line_no : nat) : option (str * nat) :=
  let stripped_line := strip line in
  match re_match header_pattern stripped_line with
  | Some m => Some (strip (group m 2), length (group m 1))
  | None => None
  end.

(* ===================================================================== *)
(** ** The document builder *)
(* ===================================================================== *)

(** The three local variables of the loop of [parse_todo_file]. *)
Record builder := mkBuilder {
  sections : list TodoSection;
  current_section : option str;
  current_tasks : list Task
}.

(** [if current_section:] on a variable that is [None] or a [str]. *)
Definition section_open (cur : option str) : option str :=
  match cur with
  | Some t => if truthy t then Some t else None
  | None => None
  end.

(** [sections.append(TodoSection(current_section, current_tasks, n))]
    under [if current_section:]. *)
Definition close_section (b : builder) (n : nat) : list TodoSection :=
  match section_open (current_section b) with
  | Some t => sections b ++ [mkSection t (current_tasks b) n]
  | None => sections b
  end.

(** One iteration of the loop, on the line [line] numbered [line_no]. A
    header closes the open section and opens a new one (with a fresh task
    list); any other line is offered to the task recogniser. *)
Definition builder_step (b : builder) (line_no : nat) (line : str) : builder :=
  match parse_section_header line line_no with
  | Some section_info =>
      mkBuilder (close_section b line_no) (Some (fst section_info)) []
  | None =>
      match parse_task_line line line_no with
      | Some task =>
          mkBuilder (sections b) (current_section b) (current_tasks b ++ [task])
      | None => b
      end
  end.

(** [for line_number, line in enumerate(lines, line_no)]. *)
Fixpoint builder_loop (lines : list str) (line_no : nat) (b : builder) : builder :=
  match lines with
  | [] => b
  | line :: lines' => builder_loop lines' (S line_no) (builder_step b line_no line)
  end.

Definition builder_init : builder := mkBuilder [] None [].

(** The body of [parse_todo_file] once the lines are read. *)
Definition parse_lines (lines : list str) : list TodoSection :=
  close_section (builder_loop lines 1 builder_init) (length lines).

(** *** Reading the file *)

Definition CR : uchar := 13%N.

(** Text mode with the default [newline=None]: [\r\n] and a lone [\r]
    are read as [\n]. *)
Fixpoint universal_newlines (s : str) : str :=
  match s with
  | [] => []
  | c :: s' =>
      if (c =? CR)%N then
        match s' with
        | d :: s'' =>
            if (d =? NL)%N then NL :: universal_newlines s''
            else NL :: universal_newlines s'
        | [] => [NL]
        end
      else c :: universal_newlines s'
  end.

(** Cut after every newline, keeping it; [cur] is the line being read,
    reversed. *)
Fixpoint split_keepends (s : str) (cur : str) : list str :=
  match s with
  | [] => match cur with [] => [] | _ => [rev cur] end
  | c :: s' =>
      if (c =? NL)%N then rev (c :: cur) :: split_keepends s' []
      else split_keepends s' (c :: cur)
  end.

(** [file.readlines()] on the decoded text of the file. *)
Definition readlines (text : str) : list str :=
  split_keepends (universal_newlines text) [].

(** A path is the list of its parts, as [PurePath] keeps it. *)
Definition Path := list str.

(** [directory / name] *)
Definition joinpath (directory : Path) (name : str) : Path := directory ++ [name].

(** What the program sees of the file system: the file a path leads to
    (what [os.stat] identifies, [None] when there is none), and the
    decoded text of a file ([None] for an [IOError] or a
    [UnicodeDecodeError]). *)
Record filesystem := mkFs {
  inode_of : Path -> option nat;
  read_text : Path -> option str
}.

(** [path.exists()] *)
Definition path_exists (fs : filesystem) (p : Path) : bool :=
  match inode_of fs p with Some _ => true | None => false end.

Definition parse_todo_file (fs : filesystem) (file_path : Path) : list TodoSection :=
  match read_text fs file_path with
  | None => []
  | Some text => parse_lines (readlines text)
  end.

(* ===================================================================== *)
(** ** The summary *)
(* ===================================================================== *)

(** [summary[key] += 1]; the key is always present in the dictionary the
    function builds, so the [KeyError] branch of Python does not arise. *)
Definition incr (key : string) (summary : gmap string nat) : gmap string nat :=
  alter (fun n => n + 1) key summary.

Definition summary_init : gmap string nat :=
  <["completed" := 0]> (<["in_progress" := 0]> (<["pending" := 0]> (<["total" := 0]> ∅))).

(** The body of the inner loop. *)
Definition count_task (summary : gmap string nat) (task : Task) : gmap string nat :=
  let summary :=
    match status task with
    | COMPLETED => incr "completed" summary
    | IN_PROGRESS => incr "in_progress" summary
    | PENDING => incr "pending" summary
    | UNKNOWN => summary
    end in
  incr "total" summary.

Definition get_task_summary (secs : list TodoSection) : gmap string nat :=
  foldl (fun summary section => foldl count_task summary (tasks section))
        summary_init secs.

(* ===================================================================== *)
(** ** Floats: what [completed / total * 100] and [:.1f] compute *)
(* ===================================================================== *)

Module Float.

Open Scope Z_scope.

(** A finite non-negative double, [mant * 2 ^ expo] with [mant < 2 ^ 53].
    The exponent range of binary64 is not modelled: the quotients of task
    counts are far from the overflow and underflow thresholds. *)
Record float := mkFloat { mant : Z; expo : Z }.

(** The rational [p / (q * 2 ^ e)] as a fraction of integers. *)
Definition scale (p q e : Z) : Z * Z :=
  if 0 <=? e then (p, q * 2 ^ e) else (p * 2 ^ (- e), q).

(** Round the fraction [p / q] to the nearest integer, ties to even. *)
Definition round_half_even (p q : Z) : Z :=
  let d := p / q in
  let r := p mod q in
  if 2 * r <? q then d
  else if q <? 2 * r then d + 1
  else if Z.even d then d else d + 1.

(** The double nearest to [num / den] (round to nearest, ties to even),
    for [0 <= num] and [0 < den]. *)
Definition fround (num den : Z) : float :=
  if num =? 0 then mkFloat 0 0
  else
    let e0 := Z.log2 num - Z.log2 den - 53 in
    let '(p0, q0) := scale num den e0 in
    let e := if p0 / q0 <? 2 ^ 53 then e0 else e0 + 1 in
    let '(p, q) := scale num den e in
    let m := round_half_even p q in
    if m =? 2 ^ 53 then mkFloat (2 ^ 52) (e + 1) else mkFloat m e.

(** The exact value of a double as a fraction. *)
Definition to_frac (x : float) : Z * Z := scale (mant x) 1 (- expo x).

(** [a / b] on two [int]s: the correctly rounded quotient. *)
Definition true_div (a b : nat) : float := fround (Z.of_nat a) (Z.of_nat b).

(** [float(n)] *)
Definition of_nat (n : nat) : float := fround (Z.of_nat n) 1.

(** [x * y] *)
Definition mul (x y : float) : float :=
  let '(p1, q1) := to_frac x in
  let '(p2, q2) := to_frac y in
  fround (p1 * p2) (q1 * q2).

(** [f"{x:.1f}"]: the decimal with one fractional digit nearest to the
    exact value of [x], ties to even. *)
Definition format_1f (x : float) : str :=
  let '(p, q) := to_frac x in
  let d := round_half_even (10 * p) q in
  str_of_N (Z.to_N (d / 10)) ++ lit "." ++ str_of_N (Z.to_N (d mod 10)).

End Float.

(* ===================================================================== *)
(** ** The report *)
(* ===================================================================== *)

Definition status_icon (st : TaskStatus) : str :=
  match st with
  | COMPLETED => [9989%N]
  | IN_PROGRESS => [128679%N]
  | PENDING => [128203%N]
  | UNKNOWN => [10067%N]
  end.

(** [Task.__str__] *)
Definition str_of_task (t : Task) : str :=
  let indent := if 1 <? level t then repeat_str (lit "  ") (level t - 1) else [] in
  indent ++ status_icon (status t) ++ lit " " ++ content t.

(** [TodoSection.__str__] *)
Definition str_of_section (sec : TodoSection) : str :=
  match tasks sec with
  | [] => [NL] ++ lit "## " ++ title sec ++ [NL] ++ lit "(No tasks)"
  | _ => [NL] ++ lit "## " ++ title sec ++ [NL]
         ++ join [NL] (map str_of_task (tasks sec))
  end.

(** [str(path)], for a relative path. *)
Definition str_of_path (p : Path) : str := join (lit "/") p.

(** [completion_rate = (summary['completed'] / summary['total']) * 100] *)
Definition completion_rate (summary : gmap string nat) : Float.float :=
  Float.mul (Float.true_div (summary !!! "completed") (summary !!! "total"))
            (Float.of_nat 100).

(** The line appended under [if summary['total'] > 0:]. *)
Definition rate_line (summary : gmap string nat) : str :=
  lit "   " ++ [128200%N] ++ lit " Completion Rate: "
  ++ Float.format_1f (completion_rate summary) ++ lit "%".

(** The list [output] of [format_output] just before it is joined. *)
Definition report_lines (secs : list TodoSection) (file_path : Path) : list str :=
  let summary := get_task_summary secs in
  [ [128196%N] ++ lit " TODO Report from: " ++ str_of_path file_path;
    repeat_str (lit "=") 60;
    [NL] ++ [128202%N] ++ lit " Task Summary:";
    lit "   Total Tasks: " ++ str_of_nat (summary !!! "total");
    lit "   " ++ [9989%N] ++ lit " Completed: " ++ str_of_nat (summary !!! "completed");
    lit "   " ++ [128679%N] ++ lit " In Progress: " ++ str_of_nat (summary !!! "in_progress");
    lit "   " ++ [128203%N] ++ lit " Pending: " ++ str_of_nat (summary !!! "pending") ]
  ++ (if 0 <? summary !!! "total" then [rate_line summary] else [])
  ++ map str_of_section secs.

Definition format_output (secs : list TodoSection) (file_path : Path) : str :=
  match secs with
  | [] => [128196%N] ++ lit " TODO file found at " ++ str_of_path file_path
          ++ lit " but no tasks detected."
  | _ => join [NL] (report_lines secs file_path)
  end.

(* ===================================================================== *)
(** ** The file locator *)
(* ===================================================================== *)

(** [PurePath.__eq__]: the parts are compared as they are on POSIX, and
    case-folded on Windows. *)
Inductive flavour := Posix | Windows.

Definition lower_char (c : uchar) : uchar :=
  if ((65 <=? c) && (c <=? 90))%N then (c + 32)%N else c.

Definition lower (s : str) : str := map lower_char s.

Definition path_eqb (fl : flavour) (p q : Path) : bool :=
  match fl with
  | Posix => bool_decide (p = q)
  | Windows => bool_decide (map lower p = map lower q)
  end.

(** [p in paths] *)
Definition path_in (fl : flavour) (p : Path) (paths : list Path) : bool :=
  existsb (path_eqb fl p) paths.

Definition variations : list str :=
  [lit "todo.md"; lit "TODO.MD"; lit "Todo.md"; lit "ToDo.md"].

(** The body of [for variation in variations]. *)
Definition add_variation (fl : flavour) (fs : filesystem) (directory : Path)
    (todo_files : list Path) (variation : str) : list Path :=
  let file_path := joinpath directory variation in
  if path_exists fs file_path && negb (path_in fl file_path todo_files)
  then todo_files ++ [file_path] else todo_files.

Definition find_todo_files (fl : flavour) (fs : filesystem) (directory : Path)
    : list Path :=
  let todo_file := joinpath directory (lit "TODO.md") in
  let todo_files := if path_exists fs todo_file then [todo_file] else [] in
  foldl (add_variation fl fs directory) todo_files variations.

(* ===================================================================== *)
(** ** The round-trip document of the specification *)
(* ===================================================================== *)

Definition sample_text : str :=
  lit "# Project" ++ [NL] ++ lit "## Completed" ++ [NL]
  ++ lit "- [x] Write spec" ++ [NL] ++ lit "## Pending" ++ [NL]
  ++ lit "- [ ] Review spec" ++ [NL] ++ lit "- [ ] Ship" ++ [NL].

Definition sample_sections : list TodoSection :=
  [ mkSection (lit "Project") [] 2;
    mkSection (lit "Completed") [mkTask (lit "Write spec") COMPLETED 1 3] 4;
    mkSection (lit "Pending")
      [mkTask (lit "Review spec") PENDING 1 5; mkTask (lit "Ship") PENDING 1 6] 6 ].

(* ===================================================================== *)
(** ** Definitions used by the statements and the proofs *)
(* ===================================================================== *)

(** Only whitespace. *)
Definition blank (s : str) : Prop := Forall (fun c => is_space c = true) s.

(** No newline inside: what one line of a file is, its terminator apart. *)
Definition one_line (s : str) : Prop := Forall (fun c => c <> NL) s.

(** Nothing to strip on the right. *)
Definition ends_clean (s : str) : Prop := rstrip s = s.

(** The continuation [re_match] starts with. *)
Definition final : str -> list str -> option (list str) := fun _ caps => Some caps.

Fixpoint ngroups (r : regex) : nat :=
  match r with
  | Grp r' => S (ngroups r')
  | Cat r1 r2 => ngroups r1 + ngroups r2
  | _ => 0
  end.

(** What [\s*(.+)] captures at the end of a right-stripped line. *)
Definition captured (s : str) : option str :=
  match s with
  | [] => None
  | _ :: _ => Some (take_while (accepts Dot) (lstrip s))
  end.

(** The status the five checkbox patterns give to a mark, in the order
    in which they are tried. *)
Definition mark_status (m : uchar) : option TaskStatus :=
  if (chr "x" =? m)%N then Some COMPLETED
  else if (chr "X" =? m)%N then Some COMPLETED
  else if is_space m then Some PENDING
  else if (chr "~" =? m)%N then Some IN_PROGRESS
  else if (chr "o" =? m)%N then Some IN_PROGRESS
  else None.

(** A bracketed mark followed by text, after optional whitespace: the
    mark, its status and the text. *)
Definition box (s1 : str) : option (TaskStatus * str) :=
  match lstrip s1 with
  | c1 :: c2 :: c3 :: s4 =>
      if ((chr "[" =? c1) && (chr "]" =? c3))%N then
        match mark_status c2, captured s4 with
        | Some st, Some g => Some (st, g)
        | _, _ => None
        end
      else None
  | _ => None
  end.

(** Status and captured text of a right-stripped line. *)
Definition classify (s : str) : option (TaskStatus * str) :=
  match lstrip s with
  | [] => None
  | c :: s1 =>
      if (chr "-" =? c)%N then
        match box s1 with
        | Some r => Some r
        | None => pair PENDING <$> captured s1
        end
      else if ((chr "*" =? c) || (chr "+" =? c))%N then pair PENDING <$> captured s1
      else None
  end.

Definition task_of (lvl line_no : nat) (r : TaskStatus * str) : Task :=
  mkTask (strip (snd r)) (fst r) lvl line_no.

(** One checkbox pattern after the bullet: brackets around a character of
    the class [k], then text. *)
Definition box_with (k : cclass) (s1 : str) : option (list str) :=
  match lstrip s1 with
  | c1 :: c2 :: c3 :: s4 =>
      if ((chr "[" =? c1)%N && accepts k c2 && (chr "]" =? c3)%N)
      then (fun g => [g]) <$> captured s4 else None
  | _ => None
  end.

(** The number of whitespace characters a line starts with. *)
Definition leading_whitespace (line : str) : nat := length (take_while is_space line).

(** The marks of the checkbox form of the specification. *)
Definition checkbox_marks : list uchar :=
  [chr "x"; chr "X"; chr " "; chr "~"; chr "o"].

(** The checkbox form, in the words of the specification: a [-], optional
    space, a bracketed mark, then remaining text. *)
Definition is_checkbox_form (s : str) : bool :=
  match lstrip s with
  | c :: s1 =>
      (chr "-" =? c)%N &&
      match lstrip s1 with
      | c1 :: m :: c3 :: text =>
          (chr "[" =? c1)%N && existsb (N.eqb m) checkbox_marks
          && (chr "]" =? c3)%N && truthy text
      | _ => false
      end
  | [] => false
  end.

(** A line is read as a task of status [st]; its content is the text,
    stripped, when the text has no newline inside. *)
Definition parses_as (line : str) (n : nat) (st : TaskStatus) (text : str) : Prop :=
  exists t,
    parse_task_line line n = Some t /\ status t = st
    /\ (one_line (strip text) -> content t = strip text).

(** The recogniser of headers does not look at the line number. *)
Definition is_header (line : str) : bool :=
  match parse_section_header line 0 with Some _ => true | None => false end.

Definition header_count (lines : list str) : nat :=
  length (List.filter is_header lines).

Definition no_header (lines : list str) : Prop :=
  Forall (fun line => is_header line = false) lines.

(** The tasks of a run of lines, numbered from [start]. *)
Fixpoint collect_tasks (lines : list str) (start : nat) : list Task :=
  match lines with
  | [] => []
  | line :: lines' =>
      match parse_task_line line start with
      | Some task => task :: collect_tasks lines' (S start)
      | None => collect_tasks lines' (S start)
      end
  end.

(** The sections emitted so far, counting the open one. *)
Definition open_count (b : builder) : nat :=
  length (sections b)
  + match section_open (current_section b) with Some _ => 1 | None => 0 end.

(** Every task emitted so far, and every task waiting in an open section,
    comes from a line after line [k]. *)
Definition tasks_after (k : nat) (b : builder) : Prop :=
  (forall sec t, In sec (sections b) -> In t (tasks sec) -> k < line_number t)
  /\ (section_open (current_section b) <> None ->
      forall t, In t (current_tasks b) -> k < line_number t).

#[global] Instance TaskStatus_eq_dec : EqDecision TaskStatus.
Proof. solve_decision. Defined.

(** Every task of a document, in order. *)
Definition all_tasks (secs : list TodoSection) : list Task :=
  concat (map tasks secs).

Definition count_in (st : TaskStatus) (ts : list Task) : nat :=
  length (List.filter (fun t => bool_decide (status t = st)) ts).

(** The number of tasks of status [st] in a document. *)
Definition count_status (st : TaskStatus) (secs : list TodoSection) : nat :=
  count_in st (all_tasks secs).

(** The dictionary [{"completed": c, "in_progress": i, "pending": p,
    "total": t}]. *)
Definition summary_of (c i p t : nat) : gmap string nat :=
  <["completed" := c]> (<["in_progress" := i]> (<["pending" := p]> (<["total" := t]> ∅))).

(** The fourth character of an entry of the report, which tells the
    entries apart. *)
Definition marker (entry : str) : option uchar := entry !! 3.

(** The message returned for a document without sections. *)
Definition no_tasks_message (file_path : Path) : str :=
  [128196%N] ++ lit " TODO file found at " ++ str_of_path file_path
  ++ lit " but no tasks detected.".

(** The same six lines without a newline after the last one. *)
Definition sample_text_no_eol : str :=
  lit "# Project" ++ [NL] ++ lit "## Completed" ++ [NL]
  ++ lit "- [x] Write spec" ++ [NL] ++ lit "## Pending" ++ [NL]
  ++ lit "- [ ] Review spec" ++ [NL] ++ lit "- [ ] Ship".

(** A file system whose every path leads to the file [text]. *)
Definition fs_with (text : str) : filesystem :=
  mkFs (fun _ => Some 1) (fun _ => Some text).

(** The round-trip scenario as the specification words it: two sections,
    [Completed] with one Completed task and [Pending] with two Pending
    tasks. *)
Definition two_sections (secs : list TodoSection) : Prop :=
  exists s1 s2,
    secs = [s1; s2]
    /\ title s1 = lit "Completed" /\ length (tasks s1) = 1
    /\ Forall (fun t => status t = COMPLETED) (tasks s1)
    /\ title s2 = lit "Pending" /\ length (tasks s2) = 2
    /\ Forall (fun t => status t = PENDING) (tasks s2).

(** The five names that are looked for, in the order of the checks. *)
Definition candidates : list str := lit "TODO.md" :: variations.

(** A file system that ignores case and holds the single file [file]:
    every spelling of its path leads to it. *)
Definition case_insensitive_fs (file : Path) : filesystem :=
  mkFs (fun p => if bool_decide (map lower p = map lower file) then Some 1 else None)
       (fun _ => None).

(** The seven entries every report of a document with sections starts
    with. *)
Definition heading_lines (secs : list TodoSection) (file_path : Path) : list str :=
  let summary := get_task_summary secs in
  [ [128196%N] ++ lit " TODO Report from: " ++ str_of_path file_path;
    repeat_str (lit "=") 60;
    [NL] ++ [128202%N] ++ lit " Task Summary:";
    lit "   Total Tasks: " ++ str_of_nat (summary !!! "total");
    lit "   " ++ [9989%N] ++ lit " Completed: " ++ str_of_nat (summary !!! "completed");
    lit "   " ++ [128679%N] ++ lit " In Progress: " ++ str_of_nat (summary !!! "in_progress");
    lit "   " ++ [128203%N] ++ lit " Pending: " ++ str_of_nat (summary !!! "pending") ].

(** The lines of a document before its first header, emptied. *)
Definition blanked (lines : list str) : list str := map (fun _ => []) lines.

(* ===================================================================== *)
(** ** The rest of the agent: categories, requests, the handler *)
(* ===================================================================== *)

(** [s.startswith(kw)] *)
Fixpoint starts_with (kw s : str) : bool :=
  match kw, s with
  | [], _ => true
  | _ :: _, [] => false
  | a :: kw', b :: s' => (a =? b)%N && starts_with kw' s'
  end.

(** [kw in s] on two strings: [kw] occurs somewhere in [s]. *)
Fixpoint contains (kw s : str) : bool :=
  starts_with kw s
  || match s with
     | [] => false
     | _ :: s' => contains kw s'
     end.

Section Lowercase.

(** [str.lower]. Its Unicode case table is not part of the source, so the
    function is a parameter of the two functions that call it. *)
Variable str_lower : str -> str.

Definition completed_keywords : list str :=
  [lit "completed"; lit "done"; lit "finished"; [9989%N]].

Definition progress_keywords : list str :=
  [lit "progress"; lit "working"; lit "current"; [128679%N]].

Definition pending_keywords : list str :=
  [lit "pending"; lit "todo"; lit "planned"; lit "upcoming"; [128203%N]].

(** [any(keyword in text for keyword in keywords)] *)
Definition any_in (keywords : list str) (text : str) : bool :=
  existsb (fun keyword => contains keyword text) keywords.

Definition categorize_section (title : str) : TaskStatus :=
  let title_lower := str_lower title in
  if any_in completed_keywords title_lower then COMPLETED
  else if any_in progress_keywords title_lower then IN_PROGRESS
  else if any_in pending_keywords title_lower then PENDING
  else UNKNOWN.

Definition todo_keywords : list str :=
  [ lit "todo"; lit "todos"; lit "to-do"; lit "to-dos";
    lit "task"; lit "tasks"; lit "current tasks";
    lit "what do i need to do"; lit "what needs to be done";
    lit "show me my"; lit "give me the"; lit "list my";
    lit "project status"; lit "pending work";
    lit "what's left"; lit "remaining work" ].

Definition is_todo_request (user_input : str) : bool :=
  let user_input_lower := str_lower user_input in
  any_in todo_keywords user_input_lower.

End Lowercase.

(** The example of a TODO file that ends the message of [handle_request]. *)
Definition usage_example : str :=
  lit "   # My Project TODO" ++ [NL]
  ++ lit "   " ++ [NL]
  ++ lit "   ## Completed" ++ [NL]
  ++ lit "   - [x] Finished task" ++ [NL]
  ++ lit "   " ++ [NL]
  ++ lit "   ## In Progress" ++ [NL]
  ++ lit "   - [~] Current task" ++ [NL]
  ++ lit "   " ++ [NL]
  ++ lit "   ## Pending" ++ [NL]
  ++ lit "   - [ ] Future task".

(** The string returned when no TODO file is found. *)
Definition usage_message (directory : Path) : str :=
  [10060%N] ++ lit " No TODO.md file found in " ++ str_of_path directory ++ [NL; NL]
  ++ [128161%N] ++ lit " To use this agent, create a TODO.md file with your tasks." ++ [NL]
  ++ lit "   Example format:" ++ [NL]
  ++ usage_example.

(** The report of one file: [format_output(parse_todo_file(p), p)]. *)
Definition file_report (fs : filesystem) (file_path : Path) : str :=
  format_output (parse_todo_file fs file_path) file_path.

(** [handle_request]; [user_input] is not read by the source either. *)
Definition handle_request (fl : flavour) (fs : filesystem) (directory : Path)
    (user_input : str) : str :=
  let todo_files := find_todo_files fl fs directory in
  match todo_files with
  | [] => usage_message directory
  | _ :: _ =>
      let all_output := map (file_report fs) todo_files in
      [NL; NL] ++ repeat_str (lit "=") 80 ++ join [NL; NL] all_output
  end.

(** *** Definitions used by the further properties *)

(** [k] times the character [#]. *)
Definition hashes (k : nat) : str := replicate k (chr "#").

(** No whitespace at either end. *)
Definition stripped (s : str) : Prop := strip s = s.

(** The titles of the header lines of a document, in order. *)
Definition header_titles (lines : list str) : list str :=
  omap (fun line => fst <$> parse_section_header line 0) lines.

(** The titles emitted so far, the open one last. *)
Definition emitted_titles (b : builder) : list str :=
  map title (sections b)
  ++ match section_open (current_section b) with Some t => [t] | None => [] end.

(** The tasks that are or will be in a section: those of the emitted
    sections and, when a section is open, those waiting in the list. *)
Definition kept_tasks (b : builder) : list Task :=
  all_tasks (sections b)
  ++ match section_open (current_section b) with
     | Some _ => current_tasks b
     | None => []
     end.

(** The task is what [parse_task_line] gives for the line of [lines]
    whose number it carries. *)
Definition task_read_from (lines : list str) (t : Task) : Prop :=
  exists line,
    lines !! (line_number t - 1) = Some line
    /\ 1 <= line_number t
    /\ parse_task_line line (line_number t) = Some t.

(** Only characters of the ASCII range. *)
Definition ascii_only (s : str) : Prop := Forall (fun c => (c < 128)%N) s.

(** [kw] occurs in [s]. *)
Definition occurs_in (kw s : str) : Prop := exists pre post, s = pre ++ kw ++ post.

(** The text with every newline written as carriage return, newline. *)
Definition to_crlf (text : str) : str :=
  flat_map (fun c => if (c =? NL)%N then [CR; NL] else [c]) text.

(* ===================================================================== *)
(** ** The embedding, evaluated on examples *)
(* ===================================================================== *)

Example ex_task_done :
  parse_task_line (lit "  - [x] Write spec ") 3
  = Some (mkTask (lit "Write spec") COMPLETED 2 3).
Proof. vm_compute. reflexivity. Qed.

Example ex_task_bare_box :
  parse_task_line (lit "- [x]") 1 = Some (mkTask (lit "[x]") PENDING 1 1).
Proof. vm_compute. reflexivity. Qed.

Example ex_header_two_hashes :
  parse_section_header (lit "##") 1 = Some (lit "#", 1).
Proof. vm_compute. reflexivity. Qed.

Example ex_header_seven :
  parse_section_header (lit "####### title") 1 = Some (lit "# title", 6).
Proof. vm_compute. reflexivity. Qed.

Example sample_parse : parse_lines (readlines sample_text) = sample_sections.
Proof. vm_compute. reflexivity. Qed.

Example sample_rate :
  Float.format_1f (completion_rate (get_task_summary sample_sections)) = lit "33.3".
Proof. vm_compute. reflexivity. Qed.

Example rate_1_2000 :
  Float.format_1f (Float.mul (Float.true_div 1 2000) (Float.of_nat 100)) = lit "0.1".
Proof. vm_compute. reflexivity. Qed.

Example rate_7_9 :
  Float.mul (Float.true_div 7 9) (Float.of_nat 100)
  = Float.mkFloat 0x1371c71c71c71d (6 - 52).
Proof. vm_compute. reflexivity. Qed.

Example rate_ties_to_even :
  map (fun '(c, t) => Float.format_1f (Float.mul (Float.true_div c t) (Float.of_nat 100)))
      [(0, 5); (3, 3); (2, 3); (1, 8); (1, 16); (3, 16)]
  = [lit "0.0"; lit "100.0"; lit "66.7"; lit "12.5"; lit "6.2"; lit "18.8"].
Proof. vm_compute. reflexivity. Qed.

Example hundred_is_exact : Float.to_frac (Float.of_nat 100) = (100 * 2 ^ 46, 2 ^ 46)%Z.
Proof. vm_compute. reflexivity. Qed.

(* ===================================================================== *)
(** ** Facts about strings *)
(* ===================================================================== *)

Section WhileLemmas.

Variable p : uchar -> bool.

Lemma take_drop_while (s : str) : take_while p s ++ drop_while p s = s.
Proof.
  induction s as [|c s IH]; simpl; [reflexivity|].
  destruct (p c); simpl; [now rewrite IH | reflexivity].
Qed.

Lemma drop_while_length (s : str) : length (drop_while p s) <= length s.
Proof.
  induction s as [|c s IH]; simpl; [lia|].
  destruct (p c); simpl; lia.
Qed.

Lemma drop_while_idem (s : str) : drop_while p (drop_while p s) = drop_while p s.
Proof.
  induction s as [|c s IH]; simpl; [reflexivity|].
  destruct (p c) eqn:E; [exact IH | simpl; now rewrite E].
Qed.

Lemma drop_while_all (w r : str) :
  Forall (fun c => p c = true) w -> drop_while p (w ++ r) = drop_while p r.
Proof.
  induction 1 as [|c w Hc _ IH]; simpl; [reflexivity|].
  now rewrite Hc.
Qed.

Lemma drop_while_stuck (c : uchar) (s : str) :
  p c = false -> drop_while p (c :: s) = c :: s.
Proof. intros H; simpl; now rewrite H. Qed.

Lemma drop_while_app_l (x y : str) :
  drop_while p x <> [] -> drop_while p (x ++ y) = drop_while p x ++ y.
Proof.
  induction x as [|c x IH]; simpl; [congruence|].
  destruct (p c); [exact IH | reflexivity].
Qed.

Lemma drop_while_fixed_l (x y : str) :
  drop_while p (x ++ y) = x ++ y -> drop_while p x = x.
Proof.
  destruct x as [|c x]; [reflexivity|]. simpl.
  destruct (p c); [|reflexivity].
  intros H. pose proof (drop_while_length (x ++ y)) as L.
  rewrite H in L. simpl in L. lia.
Qed.

Lemma drop_while_head (s : str) :
  match drop_while p s with
  | c :: _ => p c = false
  | [] => True
  end.
Proof.
  induction s as [|c s IH]; simpl; [exact I|].
  destruct (p c) eqn:E; [exact IH | exact E].
Qed.

Lemma take_while_all (s : str) :
  Forall (fun c => p c = true) s -> take_while p s = s.
Proof.
  induction 1 as [|c s Hc _ IH]; simpl; [reflexivity|].
  now rewrite Hc, IH.
Qed.

Lemma take_while_is_all (s : str) : Forall (fun c => p c = true) (take_while p s).
Proof.
  induction s as [|c s IH]; simpl; [constructor|].
  destruct (p c) eqn:E; constructor; assumption.
Qed.

Lemma take_while_length (s : str) :
  length s - length (drop_while p s) = length (take_while p s).
Proof.
  rewrite <- (take_drop_while s) at 1. rewrite length_app. lia.
Qed.

Lemma take_take_while (s : str) :
  take (length s - length (drop_while p s)) s = take_while p s.
Proof.
  rewrite take_while_length.
  rewrite <- (take_drop_while s) at 2.
  now rewrite take_app_length.
Qed.

End WhileLemmas.

Lemma space_is_not (c x : uchar) :
  is_space c = true -> is_space x = false -> (x =? c)%N = false.
Proof.
  intros Hc Hx. destruct (N.eqb_spec x c) as [->|]; [congruence | reflexivity].
Qed.

Lemma newline_is_space (c : uchar) : is_space c = false -> negb (c =? NL)%N = true.
Proof.
  intros H. destruct (N.eqb_spec c NL) as [->|]; [discriminate H | reflexivity].
Qed.

Lemma one_line_dot (s : str) :
  one_line s -> Forall (fun c => negb (c =? NL)%N = true) s.
Proof.
  intros H. eapply Forall_impl; [exact H|]. intros c Hc. simpl in Hc.
  destruct (N.eqb_spec c NL); [contradiction | reflexivity].
Qed.

(** *** [rstrip], [lstrip], [strip] *)

Lemma rstrip_idem (s : str) : rstrip (rstrip s) = rstrip s.
Proof. unfold rstrip. now rewrite rev_involutive, drop_while_idem. Qed.

Lemma rstrip_ends_clean (s : str) : ends_clean (rstrip s).
Proof. apply rstrip_idem. Qed.

Lemma ends_clean_suffix (a b : str) : ends_clean (a ++ b) -> ends_clean b.
Proof.
  unfold ends_clean, rstrip. rewrite rev_app_distr. intros H.
  apply (f_equal (@rev uchar)) in H. rewrite !rev_involutive, rev_app_distr in H.
  apply drop_while_fixed_l in H. now rewrite H, rev_involutive.
Qed.

Lemma rstrip_app_keep (a b : str) : rstrip b <> [] -> rstrip (a ++ b) = a ++ rstrip b.
Proof.
  unfold rstrip. intros H. rewrite rev_app_distr, drop_while_app_l.
  - now rewrite rev_app_distr, rev_involutive.
  - intros E. apply H. now rewrite E.
Qed.

Lemma rstrip_app_blank (s w : str) : blank w -> rstrip (s ++ w) = rstrip s.
Proof.
  unfold rstrip, blank. intros H. rewrite rev_app_distr, drop_while_all; [reflexivity|].
  now apply Forall_rev.
Qed.

Lemma ends_clean_last (s : str) (c : uchar) :
  is_space c = false -> ends_clean (s ++ [c]).
Proof.
  intros H. unfold ends_clean, rstrip. rewrite rev_app_distr. simpl.
  rewrite H. simpl. now rewrite rev_involutive.
Qed.

Lemma lstrip_ends_clean (s : str) : ends_clean s -> ends_clean (lstrip s).
Proof.
  intros H. apply (ends_clean_suffix (take_while is_space s)).
  unfold lstrip. now rewrite take_drop_while.
Qed.

(** A non-empty string with nothing to strip on the right keeps a
    character when it is stripped on the left. *)
Lemma lstrip_nonempty (s : str) : ends_clean s -> s <> [] -> lstrip s <> [].
Proof.
  unfold ends_clean, rstrip, lstrip. intros H Hs E.
  assert (B : blank s).
  { rewrite <- (take_drop_while is_space s), E, app_nil_r. apply take_while_is_all. }
  apply (f_equal (@rev uchar)) in H. rewrite rev_involutive in H.
  destruct (rev s) as [|c r] eqn:R.
  - apply (f_equal (@rev uchar)) in R. rewrite rev_involutive in R. now apply Hs.
  - assert (Hc : is_space c = true).
    { apply Forall_rev in B. rewrite R in B. now inversion B. }
    simpl in H. rewrite Hc in H.
    pose proof (drop_while_length is_space r) as L. rewrite H in L. simpl in L. lia.
Qed.

Lemma lstrip_stuck (c : uchar) (s : str) : is_space c = false -> lstrip (c :: s) = c :: s.
Proof. apply drop_while_stuck. Qed.

Lemma strip_clean (s : str) : ends_clean s -> strip s = lstrip s.
Proof. unfold strip, ends_clean. now intros ->. Qed.

Lemma strip_idem (s : str) : strip (strip s) = strip s.
Proof.
  unfold strip at 1. pose proof (lstrip_ends_clean _ (rstrip_ends_clean s)) as H.
  fold (strip s) in H. rewrite H. unfold strip, lstrip. apply drop_while_idem.
Qed.

Lemma rstrip_nil_blank (s : str) : rstrip s = [] -> blank s.
Proof.
  unfold rstrip. intros H. apply (f_equal (@rev uchar)) in H.
  rewrite rev_involutive in H. simpl in H.
  rewrite <- (rev_involutive s), <- (take_drop_while is_space (rev s)), H, app_nil_r.
  apply Forall_rev, take_while_is_all.
Qed.

(** Stripping a string that starts with a character that is not
    whitespace keeps that character. *)
Lemma strip_keeps_head (c : uchar) (s : str) :
  is_space c = false -> exists s', strip (c :: s) = c :: s'.
Proof.
  intros H. unfold strip.
  assert (E : exists r, rstrip (c :: s) = c :: r).
  { destruct (rstrip s) as [|d r] eqn:R.
    - exists []. replace (c :: s) with ([c] ++ s) by reflexivity.
      rewrite rstrip_app_blank by exact (rstrip_nil_blank s R).
      apply (ends_clean_last [] c H).
    - exists (d :: r). replace (c :: s) with ([c] ++ s) by reflexivity.
      rewrite rstrip_app_keep by (rewrite R; discriminate). now rewrite R. }
  destruct E as [r ->]. exists r. now apply lstrip_stuck.
Qed.

(* ===================================================================== *)
(** ** Facts about the matcher *)
(* ===================================================================== *)

Section GreedyLemmas.

Context {A : Type}.
Implicit Type cont : str -> option A.

(** When the rest of the pattern accepts what follows the longest run,
    that is the match found: nothing is given back. *)
Lemma greedy_all k lo s cont x :
  lo <= length (take_while (accepts k) s) ->
  cont (drop_while (accepts k) s) = Some x ->
  greedy k lo None s cont = Some x.
Proof.
  revert lo. induction s as [|c s IH]; intros lo Hlo Hx; simpl in *.
  - destruct lo; [exact Hx | lia].
  - destruct (accepts k c) eqn:E; simpl in *.
    + rewrite (IH (pred lo)); [reflexivity | lia | exact Hx].
    + destruct lo; [exact Hx | lia].
Qed.

(** When the rest of the pattern refuses every string that starts with a
    character of the class, giving characters back is of no use: the
    star takes the longest run or the match fails. *)
Lemma greedy_star_det k s cont :
  (forall c s', accepts k c = true -> cont (c :: s') = None) ->
  greedy k 0 None s cont = cont (drop_while (accepts k) s).
Proof.
  intros Hno. induction s as [|c s IH]; simpl; [reflexivity|].
  destruct (accepts k c) eqn:E; simpl; [|reflexivity].
  rewrite IH. rewrite (Hno c s E).
  now destruct (cont (drop_while (accepts k) s)).
Qed.

(** A successful repetition hands a suffix of its input to the rest of
    the pattern. *)
Lemma greedy_success k lo hi s cont x :
  greedy k lo hi s cont = Some x ->
  exists p s', s = p ++ s' /\ cont s' = Some x.
Proof.
  revert lo hi. induction s as [|c s IH]; intros lo hi H; simpl in H.
  - destruct lo; [|discriminate]. now exists [], [].
  - assert (Stop : match lo with 0 => cont (c :: s) | S _ => None end = Some x ->
                   exists p s', c :: s = p ++ s' /\ cont s' = Some x).
    { destruct lo; [|discriminate]. intros Hc. now exists [], (c :: s). }
    destruct (accepts k c && may_take hi); [|now apply Stop].
    destruct (greedy k (pred lo) (pred <$> hi) s cont) eqn:G; [|now apply Stop].
    injection H as ->. destruct (IH _ _ G) as (p & s' & -> & Hc).
    now exists (c :: p), s'.
Qed.

End GreedyLemmas.

(** A successful match of [r] hands a suffix of its input to its
    continuation, with one more capture for each group of [r]. *)
Lemma run_success r : forall whole s caps k x,
  run r whole s caps k = Some x ->
  exists p s' caps',
    s = p ++ s' /\ length caps' = length caps + ngroups r /\ k s' caps' = Some x.
Proof.
  induction r as [|c|c lo hi|r IH|r1 IH1 r2 IH2]; intros whole s caps k x H; simpl in H.
  - destruct (length s =? length whole); [|discriminate].
    exists [], s, caps. simpl. repeat split; [lia | exact H].
  - destruct s as [|y s]; [discriminate|].
    destruct (accepts c y); [|discriminate].
    exists [y], s, caps. simpl. repeat split; [lia | exact H].
  - destruct (greedy_success _ _ _ _ _ _ H) as (p & s' & -> & Hk).
    exists p, s', caps. simpl. repeat split; [lia | exact Hk].
  - destruct (IH _ _ _ _ _ H) as (p & s' & caps' & -> & L & Hk).
    exists p, s', (caps' ++ [consumed (p ++ s') s']). simpl.
    repeat split; [rewrite length_app; simpl; lia | exact Hk].
  - destruct (IH1 _ _ _ _ _ H) as (p1 & s1 & caps1 & -> & L1 & H1).
    destruct (IH2 _ _ _ _ _ H1) as (p2 & s2 & caps2 & -> & L2 & H2).
    exists (p1 ++ p2), s2, caps2. simpl.
    repeat split; [now rewrite app_assoc | lia | exact H2].
Qed.

(** *** The tail [\s*(.+)] on a right-stripped subject

    Both recognisers strip the line on the right before matching, so the
    tail of every pattern sees a string that does not end in whitespace:
    it fails on the empty string, and otherwise captures from the first
    character that is not whitespace up to the end of the physical line. *)
Lemma rest_text_final whole s caps :
  ends_clean s ->
  run rest_text whole s caps final
  = match s with
    | [] => None
    | _ :: _ => Some (caps ++ [take_while (accepts Dot) (lstrip s)])
    end.
Proof.
  intros Hs. unfold rest_text, star, plus. simpl.
  destruct s as [|c0 s0] eqn:Es; [reflexivity|]. rewrite <- Es in *.
  assert (Hne : s <> []) by (rewrite Es; discriminate).
  pose proof (lstrip_nonempty s Hs Hne) as Hl.
  pose proof (drop_while_head is_space s) as Hh. fold (lstrip s) in Hh.
  destruct (lstrip s) as [|c d] eqn:El; [congruence|].
  apply greedy_all; [lia|].
  change (drop_while (accepts Ws) s) with (lstrip s). rewrite El.
  apply greedy_all.
  - simpl. rewrite (newline_is_space c Hh). simpl. lia.
  - unfold final, consumed. now rewrite take_take_while.
Qed.

(** *** The task patterns, as functions of the subject *)

Lemma bullet_match (b : ascii) (s : str) :
  is_space (chr b) = false ->
  re_match (bullet b) s
  = match lstrip s with
    | c :: s1 => if (chr b =? c)%N then run rest_text s s1 [] final else None
    | [] => None
    end.
Proof.
  intros Hb. unfold re_match, bullet, star, ch. cbn [run]. rewrite Nat.eqb_refl.
  rewrite greedy_star_det; [reflexivity|].
  intros c s' Hc. cbn [accepts] in *. now rewrite (space_is_not c (chr b)).
Qed.

Lemma checkbox_match (k : cclass) (s : str) :
  re_match (checkbox (One k)) s
  = match lstrip s with
    | c :: s1 =>
        if (chr "-" =? c)%N then
          match lstrip s1 with
          | c1 :: s2 =>
              if (chr "[" =? c1)%N then
                match s2 with
                | c2 :: s3 =>
                    if accepts k c2 then
                      match s3 with
                      | c3 :: s4 =>
                          if (chr "]" =? c3)%N then run rest_text s s4 [] final
                          else None
                      | [] => None
                      end
                    else None
                | [] => None
                end
              else None
          | [] => None
          end
        else None
    | [] => None
    end.
Proof.
  unfold re_match, checkbox, star, ch. cbn [run]. rewrite Nat.eqb_refl.
  rewrite greedy_star_det.
  - change (drop_while (accepts Ws) s) with (lstrip s).
    destruct (lstrip s) as [|c s1]; [reflexivity|].
    change (accepts (Lit (chr "-")) c) with (chr "-" =? c)%N.
    destruct (chr "-" =? c)%N; [|reflexivity].
    rewrite greedy_star_det; [reflexivity|].
    intros c' s' Hc. cbn [accepts] in *. now rewrite (space_is_not c' (chr "[")).
  - intros c s' Hc. cbn [accepts] in *. now rewrite (space_is_not c (chr "-")).
Qed.

(* ===================================================================== *)
(** ** The cascade of task patterns as one deterministic recogniser *)
(* ===================================================================== *)

Lemma ends_clean_lstrip_tail (s : str) (p s' : str) :
  ends_clean s -> lstrip s = p ++ s' -> ends_clean s'.
Proof.
  intros Hs E. apply lstrip_ends_clean in Hs. rewrite E in Hs.
  now apply ends_clean_suffix in Hs.
Qed.

Lemma rest_text_captured (whole s : str) :
  ends_clean s -> run rest_text whole s [] final = (fun g => [g]) <$> captured s.
Proof.
  intros Hs. rewrite (rest_text_final whole s [] Hs). now destruct s.
Qed.

Lemma checkbox_match_clean (k : cclass) (s : str) :
  ends_clean s ->
  re_match (checkbox (One k)) s
  = match lstrip s with
    | c :: s1 => if (chr "-" =? c)%N then box_with k s1 else None
    | [] => None
    end.
Proof.
  intros Hs. rewrite checkbox_match. unfold box_with.
  destruct (lstrip s) as [|c s1] eqn:E; [reflexivity|].
  destruct (chr "-" =? c)%N; [|reflexivity].
  assert (H1 : ends_clean s1) by exact (ends_clean_lstrip_tail s [c] s1 Hs E).
  destruct (lstrip s1) as [|c1 [|c2 [|c3 s4]]] eqn:E1; try reflexivity.
  - now destruct (chr "[" =? c1)%N.
  - destruct (chr "[" =? c1)%N; [|reflexivity]. now destruct (accepts k c2).
  - assert (H4 : ends_clean s4)
      by exact (ends_clean_lstrip_tail s1 [c1; c2; c3] s4 H1 E1).
    rewrite (rest_text_captured s s4 H4).
    destruct (chr "[" =? c1)%N; [|reflexivity].
    destruct (accepts k c2); [|reflexivity].
    now destruct (chr "]" =? c3)%N.
Qed.

Lemma bullet_match_clean (b : ascii) (s : str) :
  is_space (chr b) = false -> ends_clean s ->
  re_match (bullet b) s
  = match lstrip s with
    | c :: s1 => if (chr b =? c)%N then (fun g => [g]) <$> captured s1 else None
    | [] => None
    end.
Proof.
  intros Hb Hs. rewrite (bullet_match b s Hb).
  destruct (lstrip s) as [|c s1] eqn:E; [reflexivity|].
  destruct (chr b =? c)%N; [|reflexivity].
  apply rest_text_captured. exact (ends_clean_lstrip_tail s [c] s1 Hs E).
Qed.

Lemma first_match_classify (s : str) (lvl n : nat) :
  ends_clean s ->
  first_match task_patterns s lvl n = task_of lvl n <$> classify s.
Proof.
  intros Hs. unfold task_patterns, ch. cbn [first_match].
  rewrite !(checkbox_match_clean _ s Hs).
  rewrite !(fun b H => bullet_match_clean b s H Hs) by reflexivity.
  unfold classify.
  destruct (lstrip s) as [|c s1]; [reflexivity|].
  destruct (N.eqb_spec (chr "-") c) as [<-|Hd].
  - change (chr "*" =? chr "-")%N with false. change (chr "+" =? chr "-")%N with false.
    unfold box_with, box.
    destruct (lstrip s1) as [|c1 [|c2 [|c3 s4]]];
      try (now destruct (captured s1)).
    destruct (chr "[" =? c1)%N; cbn [andb]; [|now destruct (captured s1)].
    destruct (chr "]" =? c3)%N;
      [|rewrite !andb_false_r; now destruct (captured s1)].
    rewrite !andb_true_r. unfold mark_status. cbn [accepts].
    destruct (captured s4) as [g|]; cbn [fmap option_fmap option_map].
    + destruct (chr "x" =? c2)%N; [reflexivity|].
      destruct (chr "X" =? c2)%N; [reflexivity|].
      destruct (is_space c2); [reflexivity|].
      destruct (chr "~" =? c2)%N; [reflexivity|].
      destruct (chr "o" =? c2)%N; [reflexivity|].
      now destruct (captured s1).
    + destruct (chr "x" =? c2)%N, (chr "X" =? c2)%N, (is_space c2),
        (chr "~" =? c2)%N, (chr "o" =? c2)%N; now destruct (captured s1).
  - destruct (chr "*" =? c)%N, (chr "+" =? c)%N;
      try reflexivity; now destruct (captured s1).
Qed.

(** [parse_task_line] in terms of the deterministic recogniser. *)
Lemma parse_task_line_classify (line : str) (n : nat) :
  parse_task_line line n
  = task_of (leading_whitespace line / 2 + 1) n <$> classify (rstrip line).
Proof.
  unfold parse_task_line, leading_whitespace, lstrip.
  rewrite take_while_length.
  destruct (rstrip line) as [|c r] eqn:E; [reflexivity|].
  cbn [truthy negb]. rewrite <- E. apply first_match_classify, rstrip_ends_clean.
Qed.

Lemma take_while_app_stuck (p : uchar -> bool) (w : str) (c : uchar) (r : str) :
  Forall (fun x => p x = true) w -> p c = false -> take_while p (w ++ c :: r) = w.
Proof.
  intros Hw Hc. induction Hw as [|x w Hx _ IH]; simpl.
  - now rewrite Hc.
  - now rewrite Hx, IH.
Qed.

Lemma lstrip_indent (w : str) (c : uchar) (r : str) :
  blank w -> is_space c = false -> lstrip (w ++ c :: r) = c :: r.
Proof.
  intros Hw Hc. unfold lstrip. rewrite drop_while_all by exact Hw.
  now apply drop_while_stuck.
Qed.

Lemma blank_rstrip (s : str) : blank s -> rstrip s = [].
Proof.
  intros H. rewrite <- (app_nil_l s). rewrite rstrip_app_blank by exact H. reflexivity.
Qed.

Lemma strip_nonempty_rstrip (s : str) : strip s <> [] -> rstrip s <> [].
Proof. unfold strip. intros H E. apply H. now rewrite E. Qed.

Lemma strip_blank_prefix (w t : str) :
  blank w -> rstrip t <> [] -> strip (w ++ t) = strip t.
Proof.
  intros Hw Ht. unfold strip. rewrite rstrip_app_keep by exact Ht.
  unfold lstrip. now apply drop_while_all.
Qed.

Lemma strip_head_clean (c : uchar) (s : str) :
  is_space c = false -> ends_clean (c :: s) -> strip (c :: s) = c :: s.
Proof.
  intros Hc Hs. rewrite strip_clean by exact Hs. now apply lstrip_stuck.
Qed.

(** What is captured starts with a character that is not whitespace, so
    it does not strip to the empty string. *)
Lemma captured_nonblank (s g : str) :
  ends_clean s -> captured s = Some g -> strip g <> [].
Proof.
  intros Hs Hg. destruct s as [|c0 s0] eqn:Es; [discriminate|]. rewrite <- Es in *.
  assert (Hne : s <> []) by (rewrite Es; discriminate).
  pose proof (lstrip_nonempty s Hs Hne) as Hl.
  pose proof (drop_while_head is_space s) as Hh. fold (lstrip s) in Hh.
  rewrite Es in Hg. simpl in Hg. rewrite <- Es in Hg. injection Hg as <-.
  destruct (lstrip s) as [|c d]; [congruence|].
  simpl. rewrite (newline_is_space c Hh).
  destruct (strip_keeps_head c (take_while (accepts Dot) d) Hh) as [s' ->].
  discriminate.
Qed.

Lemma classify_some_nonblank (s : str) (st : TaskStatus) (g : str) :
  ends_clean s -> classify s = Some (st, g) -> strip g <> [].
Proof.
  intros Hs. unfold classify, box.
  destruct (lstrip s) as [|c s1] eqn:E; [discriminate|].
  assert (H1 : ends_clean s1) by exact (ends_clean_lstrip_tail s [c] s1 Hs E).
  assert (Plain : pair PENDING <$> captured s1 = Some (st, g) -> strip g <> []).
  { destruct (captured s1) as [g'|] eqn:C; [|discriminate].
    intros [= <- <-]. exact (captured_nonblank s1 g' H1 C). }
  destruct (chr "-" =? c)%N.
  - destruct (lstrip s1) as [|c1 [|c2 [|c3 s4]]] eqn:E1; try exact Plain.
    assert (H4 : ends_clean s4)
      by exact (ends_clean_lstrip_tail s1 [c1; c2; c3] s4 H1 E1).
    destruct ((chr "[" =? c1) && (chr "]" =? c3))%N; [|exact Plain].
    destruct (mark_status c2); [|exact Plain].
    destruct (captured s4) as [g'|] eqn:C; [|exact Plain].
    intros [= <- <-]. exact (captured_nonblank s4 g' H4 C).
  - destruct ((chr "*" =? c) || (chr "+" =? c))%N; [exact Plain | discriminate].
Qed.

Lemma captured_nonempty (s : str) :
  s <> [] -> captured s = Some (take_while (accepts Dot) (lstrip s)).
Proof. now destruct s. Qed.

(** The text captured after a bullet or a checkbox: the first physical
    line of the stripped text. *)
Lemma captured_text (w text : str) :
  blank w -> strip text <> [] ->
  captured (w ++ rstrip text) = Some (take_while (accepts Dot) (strip text)).
Proof.
  intros Hw Hne. pose proof (strip_nonempty_rstrip text Hne) as Hr.
  rewrite captured_nonempty by (destruct w; [exact Hr | discriminate]).
  unfold strip, lstrip. now rewrite drop_while_all.
Qed.

Lemma captured_rstrip (text : str) :
  strip text <> [] ->
  captured (rstrip text) = Some (take_while (accepts Dot) (strip text)).
Proof. intros H. apply (captured_text [] text); [constructor | exact H]. Qed.

Lemma one_line_capture (text : str) :
  one_line (strip text) -> strip (take_while (accepts Dot) (strip text)) = strip text.
Proof.
  intros H. rewrite take_while_all by now apply one_line_dot. apply strip_idem.
Qed.

Lemma checkbox_line (indent sp text : str) (m : uchar) (st : TaskStatus) (n : nat) :
  blank indent -> blank sp -> mark_status m = Some st -> strip text <> [] ->
  parse_task_line (indent ++ chr "-" :: sp ++ chr "[" :: m :: chr "]" :: text) n
  = Some (mkTask (strip (take_while (accepts Dot) (strip text))) st
                 (length indent / 2 + 1) n).
Proof.
  intros Hi Hsp Hm Hne. pose proof (strip_nonempty_rstrip text Hne) as Hr.
  rewrite parse_task_line_classify. unfold leading_whitespace.
  rewrite take_while_app_stuck by (exact Hi || reflexivity).
  replace (indent ++ chr "-" :: sp ++ chr "[" :: m :: chr "]" :: text)
    with ((indent ++ chr "-" :: sp ++ [chr "["; m; chr "]"]) ++ text)
    by (rewrite <- !app_assoc; simpl; rewrite <- !app_assoc; reflexivity).
  rewrite rstrip_app_keep by exact Hr.
  rewrite <- !app_assoc. simpl. rewrite <- !app_assoc. simpl.
  unfold classify. rewrite lstrip_indent by (exact Hi || reflexivity).
  rewrite N.eqb_refl. unfold box. rewrite lstrip_indent by (exact Hsp || reflexivity).
  rewrite !N.eqb_refl, Hm. cbn [andb].
  rewrite (captured_rstrip text Hne).
  reflexivity.
Qed.

Lemma star_plus_line (b : ascii) (indent text : str) (n : nat) :
  b = "*"%char \/ b = "+"%char -> blank indent -> strip text <> [] ->
  parse_task_line (indent ++ chr b :: text) n
  = Some (mkTask (strip (take_while (accepts Dot) (strip text))) PENDING
                 (length indent / 2 + 1) n).
Proof.
  intros Hb Hi Hne. pose proof (strip_nonempty_rstrip text Hne) as Hr.
  rewrite parse_task_line_classify. unfold leading_whitespace.
  rewrite take_while_app_stuck by (exact Hi || (destruct Hb as [-> | ->]; reflexivity)).
  replace (indent ++ chr b :: text) with ((indent ++ [chr b]) ++ text)
    by (now rewrite <- app_assoc).
  rewrite rstrip_app_keep by exact Hr. rewrite <- app_assoc. simpl.
  unfold classify.
  rewrite lstrip_indent by (exact Hi || (destruct Hb as [-> | ->]; reflexivity)).
  rewrite (captured_rstrip text Hne).
  destruct Hb as [-> | ->]; reflexivity.
Qed.

(** Closes a goal [exists t, _ = Some t /\ _ /\ (_ = false -> status t = PENDING)]
    once the recogniser has been evaluated. *)
Ltac dash_done :=
  eexists; repeat split; solve [ intros _; reflexivity | cbn; discriminate ].

(** A [-] bullet with text: a task in any case; its status is the one of
    the checkbox patterns when one applies, and [PENDING] otherwise. *)
Lemma dash_line (indent text : str) (n : nat) :
  blank indent -> strip text <> [] ->
  exists t,
    parse_task_line (indent ++ chr "-" :: text) n = Some t
    /\ level t = length indent / 2 + 1
    /\ (is_checkbox_form (rstrip (indent ++ chr "-" :: text)) = false ->
        status t = PENDING).
Proof.
  intros Hi Hne. pose proof (strip_nonempty_rstrip text Hne) as Hr.
  rewrite parse_task_line_classify. unfold leading_whitespace.
  rewrite take_while_app_stuck by (exact Hi || reflexivity).
  replace (indent ++ chr "-" :: text) with ((indent ++ [chr "-"]) ++ text)
    by (now rewrite <- app_assoc).
  rewrite rstrip_app_keep by exact Hr. rewrite <- app_assoc. simpl.
  unfold classify, is_checkbox_form.
  rewrite lstrip_indent by (exact Hi || reflexivity). rewrite N.eqb_refl.
  rewrite (captured_rstrip text Hne). simpl app.
  unfold box.
  destruct (lstrip (rstrip text)) as [|c1 [|c2 [|c3 s4]]]; try solve [dash_done].
  destruct (chr "[" =? c1)%N; [|dash_done].
  destruct (chr "]" =? c3)%N; [|dash_done].
  cbn [andb]. unfold mark_status, checkbox_marks. cbn [existsb].
  destruct s4 as [|c4 s5]; cbn [captured truthy].
  { destruct (chr "x" =? c2)%N, (chr "X" =? c2)%N, (is_space c2),
      (chr "~" =? c2)%N, (chr "o" =? c2)%N; dash_done. }
  rewrite !(N.eqb_sym c2).
  destruct (chr "x" =? c2)%N; [dash_done|].
  destruct (chr "X" =? c2)%N; [dash_done|].
  destruct (is_space c2); [dash_done|].
  destruct (chr " " =? c2)%N, (chr "~" =? c2)%N, (chr "o" =? c2)%N; dash_done.
Qed.

(* ===================================================================== *)
(** ** The header pattern *)
(* ===================================================================== *)

Lemma run_cat_success r1 r2 whole s caps k x :
  run (r1 ∙ r2) whole s caps k = Some x ->
  exists p s' caps',
    s = p ++ s' /\ length caps' = length caps + ngroups r1
    /\ run r2 whole s' caps' k = Some x.
Proof. cbn [run]. apply run_success. Qed.

Lemma strip_ends_clean (s : str) : ends_clean (strip s).
Proof. apply lstrip_ends_clean, rstrip_ends_clean. Qed.

(** A recognised header has a title that is not empty, so that the
    [if current_section:] tests of the builder hold once a header was
    seen. *)
Lemma header_title_nonempty (line : str) (n : nat) (t : str) (d : nat) :
  parse_section_header line n = Some (t, d) -> t <> [].
Proof.
  unfold parse_section_header.
  destruct (re_match header_pattern (strip line)) as [m|] eqn:M; [|discriminate].
  intros [= <- _]. unfold re_match, header_pattern in M.
  apply run_cat_success in M. destruct M as (p1 & s1 & caps1 & E1 & L1 & M).
  apply run_cat_success in M. destruct M as (p2 & s2 & caps2 & E2 & L2 & M).
  assert (H2 : ends_clean s2).
  { apply (ends_clean_suffix (p1 ++ p2)). rewrite <- app_assoc, <- E2, <- E1.
    apply strip_ends_clean. }
  fold rest_text in M. rewrite (rest_text_final _ s2 caps2 H2) in M.
  destruct s2 as [|c0 s0] eqn:Es; [discriminate|]. rewrite <- Es in *.
  injection M as <-. simpl in L1, L2.
  destruct caps2 as [|g1 [|g2 caps2]]; simpl in L2; try lia.
  apply (captured_nonblank s2); [exact H2|].
  rewrite Es. reflexivity.
Qed.

Lemma header_match_seven (rest : str) :
  re_match header_pattern (lit "#######" ++ rest)
  = Some [lit "######"; take_while (accepts Dot) (chr "#" :: rest)].
Proof.
  unfold re_match, header_pattern, star, plus. cbn [run]. rewrite Nat.eqb_refl.
  cbn [lit app].
  set (k := fun s' : str => _).
  assert (K : k (chr "#" :: rest)
              = Some [lit "######"; take_while (accepts Dot) (chr "#" :: rest)]).
  { unfold k. apply greedy_all; [lia|].
    change (drop_while (accepts Ws) (chr "#" :: rest)) with (chr "#" :: rest).
    apply greedy_all; [simpl; lia|].
    unfold final, consumed. rewrite take_take_while. f_equal. f_equal.
    simpl length.
    replace (S (S (S (S (S (S (S (length rest))))))) - S (length rest)) with 6 by lia.
    reflexivity. }
  clearbody k. cbn [greedy accepts]. rewrite !N.eqb_refl.
  cbn [andb may_take fmap option_fmap option_map pred]. rewrite K. reflexivity.
Qed.

(* ===================================================================== *)
(** ** Claims about the line recognisers *)
(* ===================================================================== *)

Lemma parses_as_checkbox (indent text : str) (m : uchar) (st : TaskStatus) (n : nat) :
  blank indent -> strip text <> [] -> mark_status m = Some st ->
  parses_as (indent ++ chr "-" :: chr " " :: chr "[" :: m :: chr "]" :: chr " " :: text)
            n st text.
Proof.
  intros Hi Hne Hm. pose proof (strip_nonempty_rstrip text Hne) as Hr.
  assert (E : strip (chr " " :: text) = strip text).
  { apply (strip_blank_prefix [chr " "]); [repeat constructor | exact Hr]. }
  eexists. split; [|split].
  - apply (checkbox_line indent [chr " "] (chr " " :: text) m st n);
      [exact Hi | repeat constructor | exact Hm | now rewrite E].
  - reflexivity.
  - intros Hl. cbn [content]. rewrite E. now apply one_line_capture.
Qed.

Lemma parses_as_star_plus (b : ascii) (indent text : str) (n : nat) :
  b = "*"%char \/ b = "+"%char -> blank indent -> strip text <> [] ->
  parses_as (indent ++ chr b :: chr " " :: text) n PENDING text.
Proof.
  intros Hb Hi Hne. pose proof (strip_nonempty_rstrip text Hne) as Hr.
  assert (E : strip (chr " " :: text) = strip text).
  { apply (strip_blank_prefix [chr " "]); [repeat constructor | exact Hr]. }
  eexists. split; [|split].
  - apply (star_plus_line b indent (chr " " :: text) n Hb Hi). now rewrite E.
  - reflexivity.
  - intros Hl. cbn [content]. rewrite E. now apply one_line_capture.
Qed.

(** C2. A line [- [x] text] or [- [X] text] is a Completed task whose
    content is the text stripped of surrounding whitespace; [- [ ] text]
    is Pending; [- [~] text] and [- [o] text] are InProgress; a plain
    bullet [- text] that is not of the checkbox form, [* text] and
    [+ text] are Pending. The line may be indented; the text holds a
    character that is not whitespace. *)
Theorem task_line_status (indent text : str) (n : nat) :
  blank indent -> strip text <> [] ->
  parses_as (indent ++ lit "- [x] " ++ text) n COMPLETED text
  /\ parses_as (indent ++ lit "- [X] " ++ text) n COMPLETED text
  /\ parses_as (indent ++ lit "- [ ] " ++ text) n PENDING text
  /\ parses_as (indent ++ lit "- [~] " ++ text) n IN_PROGRESS text
  /\ parses_as (indent ++ lit "- [o] " ++ text) n IN_PROGRESS text
  /\ (is_checkbox_form (rstrip (indent ++ lit "- " ++ text)) = false ->
      exists t, parse_task_line (indent ++ lit "- " ++ text) n = Some t
                /\ status t = PENDING)
  /\ parses_as (indent ++ lit "* " ++ text) n PENDING text
  /\ parses_as (indent ++ lit "+ " ++ text) n PENDING text.
Proof.
  intros Hi Hne.
  repeat split;
    try (apply parses_as_checkbox; [exact Hi | exact Hne | reflexivity]);
    try (apply parses_as_star_plus; [tauto | exact Hi | exact Hne]).
  intros Hform. pose proof (strip_nonempty_rstrip text Hne) as Hr.
  destruct (dash_line indent (chr " " :: text) n Hi) as (t & Ht & _ & Hst).
  - change (chr " " :: text) with ([chr " "] ++ text).
    rewrite strip_blank_prefix; [exact Hne | repeat constructor | exact Hr].
  - exists t. split; [exact Ht | exact (Hst Hform)].
Qed.

Lemma task_line_status_witness :
  parses_as (lit "  " ++ lit "- [x] " ++ lit "Write spec ") 3 COMPLETED (lit "Write spec ")
  /\ (exists t, parse_task_line (lit "  " ++ lit "- " ++ lit "Write spec ") 3 = Some t
                /\ status t = PENDING).
Proof.
  pose proof (task_line_status (lit "  ") (lit "Write spec ") 3) as H.
  destruct H as (Hx & _ & _ & _ & _ & Hdash & _).
  - repeat constructor.
  - vm_compute. discriminate.
  - split; [exact Hx | apply Hdash; vm_compute; reflexivity].
Defined.

(** C6. The level of a task is the number of whitespace characters its
    line starts with, halved and rounded down, plus one: no leading space
    gives level 1, two give level 2, four give level 3. *)
Theorem task_level (line : str) (n : nat) (t : Task) :
  parse_task_line line n = Some t ->
  level t = leading_whitespace line / 2 + 1
  /\ (leading_whitespace line = 0 -> level t = 1)
  /\ (leading_whitespace line = 2 -> level t = 2)
  /\ (leading_whitespace line = 4 -> level t = 3).
Proof.
  rewrite parse_task_line_classify.
  destruct (classify (rstrip line)) as [r|]; [|discriminate].
  intros [= <-]. cbn [task_of level].
  repeat split; intros ->; reflexivity.
Qed.

Lemma task_level_witness :
  level (mkTask (lit "Ship") PENDING 3 6) = leading_whitespace (lit "    - [ ] Ship") / 2 + 1
  /\ (leading_whitespace (lit "    - [ ] Ship") = 4 ->
      level (mkTask (lit "Ship") PENDING 3 6) = 3).
Proof.
  pose proof (task_level (lit "    - [ ] Ship") 6 (mkTask (lit "Ship") PENDING 3 6)) as H.
  destruct H as (H1 & _ & _ & H4).
  - vm_compute. reflexivity.
  - split; [exact H1 | exact H4].
Defined.

(** C7. A line made of whitespace only gives no task; whenever a task is
    returned its content is not empty and its level is at least 1. *)
Theorem task_content_nonempty :
  (forall line n, blank line -> parse_task_line line n = None)
  /\ (forall line n t,
        parse_task_line line n = Some t -> content t <> [] /\ 1 <= level t).
Proof.
  split.
  - intros line n Hb. unfold parse_task_line. now rewrite (blank_rstrip line Hb).
  - intros line n t. rewrite parse_task_line_classify.
    destruct (classify (rstrip line)) as [[st g]|] eqn:C; [|discriminate].
    intros [= <-]. cbn [task_of content level fst snd]. split; [|lia].
    exact (classify_some_nonblank _ st g (rstrip_ends_clean line) C).
Qed.

Lemma task_content_nonempty_witness :
  parse_task_line (lit "   ") 1 = None
  /\ content (mkTask (lit "b") PENDING 2 7) <> []
  /\ 1 <= level (mkTask (lit "b") PENDING 2 7).
Proof.
  destruct task_content_nonempty as [Hblank Hsome]. split.
  - apply Hblank. repeat constructor.
  - apply (Hsome (lit "  * b") 7). vm_compute. reflexivity.
Defined.

(** C9. A line whose stripped content starts with seven [#] is a header
    of depth exactly 6: the seventh [#] starts the title, which is the
    rest of the stripped line when that has no newline inside. *)
Theorem header_seven_hashes (line rest : str) (n : nat) :
  strip line = lit "#######" ++ rest ->
  exists title',
    parse_section_header line n = Some (chr "#" :: title', 6)
    /\ (one_line rest -> title' = rest).
Proof.
  intros H. unfold parse_section_header. rewrite H, header_match_seven.
  assert (Hc : ends_clean (chr "#" :: rest)).
  { apply (ends_clean_suffix (lit "######")). change (ends_clean (lit "#######" ++ rest)).
    rewrite <- H. apply strip_ends_clean. }
  change (group [lit "######"; take_while (accepts Dot) (chr "#" :: rest)] 2)
    with (chr "#" :: take_while (accepts Dot) rest).
  change (length (group [lit "######"; take_while (accepts Dot) (chr "#" :: rest)] 1))
    with 6.
  destruct (strip_keeps_head (chr "#") (take_while (accepts Dot) rest) eq_refl)
    as [s' Es].
  exists s'. split; [now rewrite Es|].
  intros Hl. rewrite take_while_all in Es by now apply one_line_dot.
  rewrite strip_head_clean in Es by (reflexivity || exact Hc). congruence.
Qed.

Lemma header_seven_hashes_witness :
  exists title',
    parse_section_header (lit "  ####### title ") 1 = Some (chr "#" :: title', 6)
    /\ (one_line (lit " title") -> title' = lit " title").
Proof.
  apply (header_seven_hashes (lit "  ####### title ") (lit " title") 1).
  vm_compute. reflexivity.
Defined.

(** C10. A line that, right-stripped, is a [-] bullet followed by a
    checkbox mark and nothing else is not classified by its mark: it is a
    Pending task whose content is the bracket text itself. *)
Theorem bare_checkbox_is_plain_bullet (line indent sp : str) (m : uchar) (n : nat) :
  blank indent -> blank sp -> In m checkbox_marks ->
  rstrip line = indent ++ lit "-" ++ sp ++ [chr "["; m; chr "]"] ->
  parse_task_line line n
  = Some (mkTask [chr "["; m; chr "]"] PENDING (leading_whitespace line / 2 + 1) n).
Proof.
  intros Hi Hsp Hm H. rewrite parse_task_line_classify, H. cbn [lit app].
  unfold classify. rewrite lstrip_indent by (exact Hi || reflexivity).
  rewrite N.eqb_refl. unfold box. rewrite lstrip_indent by (exact Hsp || reflexivity).
  rewrite !N.eqb_refl. cbn [andb captured].
  rewrite captured_nonempty by (destruct sp; discriminate).
  rewrite lstrip_indent by (exact Hsp || reflexivity).
  assert (F : forall o : option TaskStatus,
            match o with
            | Some _ => None (A := TaskStatus * str)
            | None => None
            end = None) by (now intros []).
  rewrite F. unfold checkbox_marks in Hm. cbn [In] in Hm.
  destruct Hm as [<-|[<-|[<-|[<-|[<-|[]]]]]]; vm_compute; reflexivity.
Qed.

Lemma bare_checkbox_is_plain_bullet_witness :
  parse_task_line (lit "- [x]  ") 4 = Some (mkTask (lit "[x]") PENDING 1 4).
Proof.
  apply (bare_checkbox_is_plain_bullet (lit "- [x]  ") [] (lit " ") (chr "x") 4).
  - constructor.
  - repeat constructor.
  - vm_compute. tauto.
  - vm_compute. reflexivity.
Defined.

(* ===================================================================== *)
(** ** Facts about the document builder *)
(* ===================================================================== *)

Lemma header_any_line_no (line : str) (n m : nat) :
  parse_section_header line n = parse_section_header line m.
Proof. reflexivity. Qed.

Lemma is_header_false (line : str) (n : nat) :
  is_header line = false -> parse_section_header line n = None.
Proof.
  unfold is_header. rewrite (header_any_line_no line n 0).
  now destruct (parse_section_header line 0).
Qed.

Lemma is_header_true (line : str) (n : nat) :
  is_header line = true -> exists t d, parse_section_header line n = Some (t, d).
Proof.
  unfold is_header. rewrite (header_any_line_no line n 0).
  destruct (parse_section_header line 0) as [[t d]|]; [eauto | discriminate].
Qed.

(** [no_header], decided by evaluation. *)
Lemma no_header_check (lines : list str) :
  forallb (fun line => negb (is_header line)) lines = true -> no_header lines.
Proof.
  intros H. apply Forall_forall. intros line Hin.
  rewrite forallb_forall in H. apply list_elem_of_In in Hin.
  specialize (H line Hin). now destruct (is_header line).
Qed.

Lemma parse_task_line_number (line : str) (n : nat) (t : Task) :
  parse_task_line line n = Some t -> line_number t = n.
Proof.
  rewrite parse_task_line_classify.
  destruct (classify (rstrip line)); [|discriminate]. now intros [= <-].
Qed.

Lemma builder_step_header (b : builder) (n : nat) (line t : str) (d : nat) :
  parse_section_header line n = Some (t, d) ->
  builder_step b n line = mkBuilder (close_section b n) (Some t) [].
Proof. unfold builder_step. now intros ->. Qed.

Lemma builder_step_plain (b : builder) (n : nat) (line : str) :
  is_header line = false ->
  builder_step b n line
  = mkBuilder (sections b) (current_section b)
              (current_tasks b ++ collect_tasks [line] n).
Proof.
  intros H. unfold builder_step. rewrite (is_header_false line n H). simpl.
  destruct (parse_task_line line n); [reflexivity|].
  destruct b. simpl. now rewrite app_nil_r.
Qed.

Lemma builder_loop_app (l1 l2 : list str) (n : nat) (b : builder) :
  builder_loop (l1 ++ l2) n b = builder_loop l2 (n + length l1) (builder_loop l1 n b).
Proof.
  revert n b. induction l1 as [|line l1 IH]; intros n b; simpl.
  - now rewrite Nat.add_0_r.
  - rewrite IH. now rewrite Nat.add_succ_r.
Qed.

(** Lines that are not headers only add tasks to the open list. *)
Lemma builder_loop_plain (lines : list str) (n : nat) (b : builder) :
  no_header lines ->
  builder_loop lines n b
  = mkBuilder (sections b) (current_section b)
              (current_tasks b ++ collect_tasks lines n).
Proof.
  intros H. revert n b. induction H as [|line lines Hl _ IH]; intros n b.
  - destruct b. simpl. now rewrite app_nil_r.
  - cbn [builder_loop]. rewrite IH, (builder_step_plain b n line Hl). simpl.
    rewrite <- app_assoc. f_equal.
    now destruct (parse_task_line line n).
Qed.

Lemma close_section_length (b : builder) (n : nat) :
  length (close_section b n) = open_count b.
Proof.
  unfold close_section, open_count.
  destruct (section_open (current_section b)); [|lia].
  rewrite length_app. simpl. lia.
Qed.

Lemma close_section_prefix (b : builder) (n : nat) :
  sections b `prefix_of` close_section b n.
Proof.
  unfold close_section. destruct (section_open (current_section b)).
  - now apply prefix_app_r.
  - reflexivity.
Qed.

Lemma section_open_title (t : str) : t <> [] -> section_open (Some t) = Some t.
Proof. now destruct t. Qed.

Lemma builder_step_count (b : builder) (n : nat) (line : str) :
  open_count (builder_step b n line)
  = open_count b + (if is_header line then 1 else 0).
Proof.
  destruct (is_header line) eqn:H.
  - destruct (is_header_true line n H) as (t & d & E).
    rewrite (builder_step_header b n line t d E). unfold open_count at 1.
    cbn [sections current_section].
    rewrite (section_open_title t (header_title_nonempty line n t d E)).
    now rewrite close_section_length.
  - rewrite (builder_step_plain b n line H). unfold open_count. simpl. lia.
Qed.

Lemma builder_loop_count (lines : list str) (n : nat) (b : builder) :
  open_count (builder_loop lines n b) = open_count b + header_count lines.
Proof.
  revert n b. induction lines as [|line lines IH]; intros n b; simpl.
  - unfold header_count. simpl. lia.
  - rewrite IH, builder_step_count. unfold header_count. simpl.
    destruct (is_header line); simpl; lia.
Qed.

Lemma builder_step_prefix (b : builder) (n : nat) (line : str) :
  sections b `prefix_of` sections (builder_step b n line).
Proof.
  unfold builder_step. destruct (parse_section_header line n).
  - apply close_section_prefix.
  - now destruct (parse_task_line line n).
Qed.

Lemma builder_loop_prefix (lines : list str) (n : nat) (b : builder) :
  sections b `prefix_of` sections (builder_loop lines n b).
Proof.
  revert n b. induction lines as [|line lines IH]; intros n b; simpl.
  - reflexivity.
  - etransitivity; [apply builder_step_prefix | apply IH].
Qed.

(** A section emitted at some point stays where it is in the result. *)
Lemma emitted_stays (b : builder) (lines : list str) (n m i : nat) (sec : TodoSection) :
  sections b !! i = Some sec ->
  close_section (builder_loop lines n b) m !! i = Some sec.
Proof.
  intros H. eapply prefix_lookup_Some; [exact H|].
  etransitivity; [apply builder_loop_prefix | apply close_section_prefix].
Qed.

Lemma close_section_after (k n : nat) (b : builder) :
  tasks_after k b ->
  forall sec t, In sec (close_section b n) -> In t (tasks sec) -> k < line_number t.
Proof.
  intros [Hs Hc] sec t. unfold close_section.
  destruct (section_open (current_section b)) as [ti|] eqn:E; [|apply Hs].
  rewrite in_app_iff. intros [Hin|[<-|[]]].
  - now apply Hs.
  - simpl. apply Hc. congruence.
Qed.

Lemma builder_step_after (k n : nat) (b : builder) (line : str) :
  k < n -> tasks_after k b -> tasks_after k (builder_step b n line).
Proof.
  intros Hk Hb. unfold builder_step.
  destruct (parse_section_header line n) as [info|].
  - split; simpl; [apply (close_section_after k n b Hb) | now intros _ t].
  - destruct (parse_task_line line n) as [task|] eqn:T; [|exact Hb].
    destruct Hb as [Hs Hc]. split; simpl; [exact Hs|].
    intros Ho t. rewrite in_app_iff. intros [Hin|[<-|[]]].
    + now apply Hc.
    + now rewrite (parse_task_line_number line n task T).
Qed.

Lemma builder_loop_after (k : nat) (lines : list str) (n : nat) (b : builder) :
  k < n -> tasks_after k b -> tasks_after k (builder_loop lines n b).
Proof.
  revert n b. induction lines as [|line lines IH]; intros n b Hk Hb; simpl.
  - exact Hb.
  - apply IH; [lia | now apply builder_step_after].
Qed.

(** While no section is open, the tasks waiting in the list do not
    matter: the next header drops them. *)
Lemma waiting_tasks_dropped (lines : list str) : forall n m secs cur ts1 ts2,
  section_open cur = None ->
  close_section (builder_loop lines n (mkBuilder secs cur ts1)) m
  = close_section (builder_loop lines n (mkBuilder secs cur ts2)) m.
Proof.
  induction lines as [|line lines IH]; intros n m secs cur ts1 ts2 Hc.
  - unfold close_section. simpl. now rewrite Hc.
  - cbn [builder_loop]. unfold builder_step.
    destruct (parse_section_header line n) as [info|].
    + unfold close_section at 2 4. cbn [sections current_section current_tasks].
      now rewrite Hc.
    + cbn [sections current_section current_tasks].
      destruct (parse_task_line line n); now apply IH.
Qed.

Lemma no_header_blanked (lines : list str) : no_header (blanked lines).
Proof. unfold blanked. induction lines; constructor; [reflexivity | assumption]. Qed.

Lemma blanked_length (lines : list str) : length (blanked lines) = length lines.
Proof. apply length_map. Qed.

(* ===================================================================== *)
(** ** Claims about the document builder *)
(* ===================================================================== *)

Lemma parse_lines_no_header (lines : list str) :
  no_header lines -> parse_lines lines = [].
Proof.
  intros H. unfold parse_lines. now rewrite (builder_loop_plain lines 1 _ H).
Qed.

(** C3. A document without a header line gives no section, whatever task
    lines it holds; and a task line before the first header is in no
    section: the tasks of the sections all come from later lines, and
    the result is the same when the lines before the first header are
    emptied. *)
Theorem no_header_no_section :
  (forall fs file_path text,
      read_text fs file_path = Some text -> no_header (readlines text) ->
      parse_todo_file fs file_path = [])
  /\ (forall pre rest sec t,
        no_header pre ->
        In sec (parse_lines (pre ++ rest)) -> In t (tasks sec) ->
        length pre < line_number t)
  /\ (forall pre rest,
        no_header pre -> parse_lines (pre ++ rest) = parse_lines (blanked pre ++ rest)).
Proof.
  split; [|split].
  - intros fs file_path text Hr H. unfold parse_todo_file. rewrite Hr.
    now apply parse_lines_no_header.
  - intros pre rest sec t Hpre. unfold parse_lines.
    rewrite builder_loop_app, (builder_loop_plain pre 1 _ Hpre).
    apply close_section_after, builder_loop_after; [lia|].
    split; simpl; [now intros ? ? [] | congruence].
  - intros pre rest Hpre. unfold parse_lines.
    rewrite !builder_loop_app, (builder_loop_plain pre 1 _ Hpre),
      (builder_loop_plain (blanked pre) 1 _ (no_header_blanked pre)).
    rewrite !length_app, !blanked_length.
    now apply waiting_tasks_dropped.
Qed.

Lemma no_header_no_section_witness :
  parse_todo_file
    (mkFs (fun _ => Some 1) (fun _ => Some (lit "- [x] a" ++ [NL] ++ lit "* b")))
    [lit "TODO.md"] = []
  /\ length [lit "- early"] < line_number (mkTask (lit "late") PENDING 1 3)
  /\ parse_lines ([lit "- early"] ++ [lit "# H"; lit "- late"])
     = parse_lines (blanked [lit "- early"] ++ [lit "# H"; lit "- late"]).
Proof.
  destruct no_header_no_section as (Hnone & Hpre & Hblank). split; [|split].
  - apply (Hnone _ _ (lit "- [x] a" ++ [NL] ++ lit "* b")); [reflexivity|].
    apply no_header_check. vm_compute. reflexivity.
  - apply (Hpre [lit "- early"] [lit "# H"; lit "- late"]
                (mkSection (lit "H") [mkTask (lit "late") PENDING 1 3] 3)).
    + apply no_header_check. vm_compute. reflexivity.
    + vm_compute. tauto.
    + vm_compute. tauto.
  - apply Hblank. apply no_header_check. vm_compute. reflexivity.
Defined.

(** C4. A section closed by a later header carries the line number of
    that header, not of the header that opened it; the section still open
    at the end carries the number of lines of the document. The section
    opened by a header is found at the index that counts the headers
    before it, with the tasks of the lines up to the next header. *)
Theorem section_line_numbers :
  (forall pre h1 mid h2 post t1 d1,
      parse_section_header h1 (length pre + 1) = Some (t1, d1) ->
      no_header mid -> is_header h2 = true ->
      parse_lines (pre ++ h1 :: mid ++ h2 :: post) !! header_count pre
      = Some (mkSection t1 (collect_tasks mid (length pre + 2))
                        (length pre + length mid + 2)))
  /\ (forall pre h rest t d,
        parse_section_header h (length pre + 1) = Some (t, d) ->
        no_header rest ->
        parse_lines (pre ++ h :: rest) !! header_count pre
        = Some (mkSection t (collect_tasks rest (length pre + 2))
                          (length (pre ++ h :: rest)))
        /\ length (parse_lines (pre ++ h :: rest)) = header_count pre + 1).
Proof.
  split.
  - intros pre h1 mid h2 post t1 d1 H1 Hmid H2. unfold parse_lines.
    rewrite builder_loop_app. cbn [builder_loop].
    rewrite (builder_step_header _ _ h1 t1 d1)
      by (rewrite (header_any_line_no h1 _ (length pre + 1)); exact H1).
    rewrite builder_loop_app, (builder_loop_plain mid _ _ Hmid). cbn [builder_loop].
    destruct (is_header_true h2 (S (1 + length pre) + length mid) H2) as (t2 & d2 & E2).
    rewrite (builder_step_header _ _ h2 t2 d2 E2).
    apply emitted_stays. cbn [sections]. unfold close_section at 1.
    cbn [sections current_section current_tasks app].
    rewrite (section_open_title t1 (header_title_nonempty _ _ _ _ H1)).
    replace (S (1 + length pre)) with (length pre + 2) by lia.
    replace (length pre + 2 + length mid) with (length pre + length mid + 2) by lia.
    apply list_lookup_middle.
    rewrite close_section_length, builder_loop_count. reflexivity.
  - intros pre h rest t d H Hrest. unfold parse_lines.
    rewrite builder_loop_app. cbn [builder_loop].
    rewrite (builder_step_header _ _ h t d)
      by (rewrite (header_any_line_no h _ (length pre + 1)); exact H).
    rewrite (builder_loop_plain rest _ _ Hrest).
    pose proof (section_open_title t (header_title_nonempty _ _ _ _ H)) as Ht.
    split.
    + unfold close_section at 1. cbn [sections current_section current_tasks app].
      rewrite Ht. replace (S (1 + length pre)) with (length pre + 2) by lia.
      apply list_lookup_middle.
      rewrite close_section_length, builder_loop_count. reflexivity.
    + rewrite close_section_length. unfold open_count at 1.
      cbn [sections current_section]. rewrite Ht.
      rewrite close_section_length, builder_loop_count. reflexivity.
Qed.

Lemma section_line_numbers_witness :
  parse_lines ([lit "# A"] ++ lit "## B" :: [lit "- [x] c"] ++ lit "## D" :: [lit "- e"])
    !! header_count [lit "# A"]
  = Some (mkSection (lit "B") (collect_tasks [lit "- [x] c"] (1 + 2)) (1 + 1 + 2))
  /\ parse_lines ([lit "# A"; lit "## B"; lit "- [x] c"] ++ lit "## D" :: [lit "- e"])
       !! header_count [lit "# A"; lit "## B"; lit "- [x] c"]
     = Some (mkSection (lit "D") (collect_tasks [lit "- e"] (3 + 2)) 5).
Proof.
  destruct section_line_numbers as [Hclosed Hlast]. split.
  - apply (Hclosed [lit "# A"] (lit "## B") [lit "- [x] c"] (lit "## D") [lit "- e"]
                   (lit "B") 2).
    + vm_compute. reflexivity.
    + apply no_header_check. vm_compute. reflexivity.
    + vm_compute. reflexivity.
  - apply (Hlast [lit "# A"; lit "## B"; lit "- [x] c"] (lit "## D") [lit "- e"]
                 (lit "D") 2).
    + vm_compute. reflexivity.
    + apply no_header_check. vm_compute. reflexivity.
Defined.

(* ===================================================================== *)
(** ** Facts about rounding and joining *)
(* ===================================================================== *)

(** Rounding to the nearest integer is off by half a unit at most. *)
Lemma round_half_even_nearest (p q : Z) :
  (0 < q)%Z ->
  (2 * Z.abs (Float.round_half_even p q * q - p) <= q)%Z.
Proof.
  intros Hq. unfold Float.round_half_even.
  pose proof (Z.div_mod p q ltac:(lia)) as E.
  pose proof (Z.mod_pos_bound p q Hq) as B.
  destruct (Z.ltb_spec (2 * (p mod q)) q); [nia|].
  destruct (Z.ltb_spec q (2 * (p mod q))); [nia|].
  destruct (Z.even (p / q)); nia.
Qed.

(** On a tie the even neighbour is chosen. *)
Lemma round_half_even_tie (p q : Z) :
  (0 < q)%Z -> (2 * (p mod q) = q)%Z ->
  Z.even (Float.round_half_even p q) = true.
Proof.
  intros Hq T. unfold Float.round_half_even.
  destruct (Z.ltb_spec (2 * (p mod q)) q); [lia|].
  destruct (Z.ltb_spec q (2 * (p mod q))); [lia|].
  destruct (Z.even (p / q)) eqn:Ev; [exact Ev|].
  rewrite Z.even_add, Ev. reflexivity.
Qed.

Lemma join_cons (sep x : str) (rest : list str) :
  join sep (x :: rest) = x ++ concat (map (fun e => sep ++ e) rest).
Proof.
  revert x. induction rest as [|y rest IH]; intros x.
  - simpl. now rewrite app_nil_r.
  - change (join sep (x :: y :: rest)) with (x ++ sep ++ join sep (y :: rest)).
    rewrite IH. simpl. now rewrite <- app_assoc.
Qed.

(** Joining a list that goes on: what follows is appended entry by
    entry, each after a separator. *)
Lemma join_app (sep : str) (l rest : list str) :
  l <> [] ->
  join sep (l ++ rest) = join sep l ++ concat (map (fun e => sep ++ e) rest).
Proof.
  destruct l as [|x l]; [congruence|]. intros _.
  change ((x :: l) ++ rest) with (x :: (l ++ rest)).
  rewrite !join_cons, map_app, concat_app. now rewrite app_assoc.
Qed.

(* ===================================================================== *)
(** ** Facts about the summary and the report *)
(* ===================================================================== *)

Lemma count_task_summary (c i p t : nat) (task : Task) :
  count_task (summary_of c i p t) task
  = match status task with
    | COMPLETED => summary_of (c + 1) i p (t + 1)
    | IN_PROGRESS => summary_of c (i + 1) p (t + 1)
    | PENDING => summary_of c i (p + 1) (t + 1)
    | UNKNOWN => summary_of c i p (t + 1)
    end.
Proof. unfold count_task. destruct (status task); reflexivity. Qed.

Lemma count_in_cons (st : TaskStatus) (task : Task) (ts : list Task) :
  count_in st (task :: ts)
  = (if bool_decide (status task = st) then 1 else 0) + count_in st ts.
Proof. unfold count_in. simpl. now destruct (bool_decide (status task = st)). Qed.

Lemma count_in_app (st : TaskStatus) (ts1 ts2 : list Task) :
  count_in st (ts1 ++ ts2) = count_in st ts1 + count_in st ts2.
Proof. unfold count_in. now rewrite List.filter_app, length_app. Qed.

Lemma count_in_partition (ts : list Task) :
  count_in COMPLETED ts + count_in IN_PROGRESS ts + count_in PENDING ts
  + count_in UNKNOWN ts = length ts.
Proof.
  induction ts as [|task ts IH]; [reflexivity|].
  rewrite !count_in_cons. simpl length. destruct (status task); simpl; lia.
Qed.

Lemma fold_count_task (ts : list Task) : forall c i p t,
  foldl count_task (summary_of c i p t) ts
  = summary_of (c + count_in COMPLETED ts) (i + count_in IN_PROGRESS ts)
               (p + count_in PENDING ts) (t + length ts).
Proof.
  induction ts as [|task ts IH]; intros c i p t.
  - unfold count_in. simpl. now rewrite !Nat.add_0_r.
  - cbn [foldl]. rewrite count_task_summary, !count_in_cons. simpl length.
    destruct (status task); rewrite IH; simpl; f_equal; lia.
Qed.

Lemma fold_sections (secs : list TodoSection) : forall c i p t,
  foldl (fun summary section => foldl count_task summary (tasks section))
        (summary_of c i p t) secs
  = summary_of (c + count_status COMPLETED secs) (i + count_status IN_PROGRESS secs)
               (p + count_status PENDING secs) (t + length (all_tasks secs)).
Proof.
  unfold count_status, all_tasks.
  induction secs as [|sec secs IH]; intros c i p t.
  - unfold count_in. simpl. now rewrite !Nat.add_0_r.
  - cbn [foldl map concat]. rewrite fold_count_task, IH, !count_in_app, length_app.
    f_equal; lia.
Qed.

Lemma get_task_summary_counts (secs : list TodoSection) :
  get_task_summary secs
  = summary_of (count_status COMPLETED secs) (count_status IN_PROGRESS secs)
               (count_status PENDING secs) (length (all_tasks secs)).
Proof.
  unfold get_task_summary. change summary_init with (summary_of 0 0 0 0).
  now rewrite fold_sections.
Qed.

Lemma marker_section (sec : TodoSection) : marker (str_of_section sec) = Some (chr " ").
Proof. unfold str_of_section. now destruct (tasks sec). Qed.

(** The completion-rate line is an entry of the report exactly when it
    was appended: no other entry reads the same. *)
Lemma rate_line_in_report (secs : list TodoSection) (file_path : Path) :
  In (rate_line (get_task_summary secs)) (report_lines secs file_path)
  <-> 0 < get_task_summary secs !!! "total".
Proof.
  unfold report_lines. generalize (get_task_summary secs). intros summary.
  assert (Other : forall e, marker e <> Some 128200%N -> e = rate_line summary -> False).
  { intros e He E. apply He. now rewrite E. }
  split.
  - intros H. destruct (0 <? summary !!! "total") eqn:T; [now apply Nat.ltb_lt|].
    exfalso. cbn [app] in H.
    repeat (destruct H as [H|H];
            [revert H; apply Other; vm_compute; discriminate|]).
    apply in_map_iff in H. destruct H as (sec & E & _). revert E. apply Other.
    rewrite marker_section. discriminate.
  - intros H. apply Nat.ltb_lt in H. rewrite H.
    do 7 right. now left.
Qed.

(* ===================================================================== *)
(** ** Claims about the summary and the report *)
(* ===================================================================== *)

(** C5. The summary counts the Completed, InProgress and Pending tasks
    under their keys, and every task, those of Unknown status too, under
    [total]. The report of a document with sections is its seven heading
    lines, then the completion-rate line exactly when the total is
    positive, then the sections; that line shows
    [completed / total * 100] with one decimal. Without sections the
    total is zero and the report is a message without that line. *)
Theorem summary_and_rate (secs : list TodoSection) (file_path : Path) :
  let c := count_status COMPLETED secs in
  let i := count_status IN_PROGRESS secs in
  let p := count_status PENDING secs in
  let u := count_status UNKNOWN secs in
  let summary := get_task_summary secs in
  summary = summary_of c i p (c + i + p + u)
  /\ summary !! "completed" = Some c
  /\ summary !! "in_progress" = Some i
  /\ summary !! "pending" = Some p
  /\ summary !! "total" = Some (c + i + p + u)
  /\ (In (rate_line summary) (report_lines secs file_path) <-> 0 < c + i + p + u)
  /\ rate_line summary
     = lit "   " ++ [128200%N] ++ lit " Completion Rate: "
       ++ Float.format_1f
            (Float.mul (Float.true_div c (c + i + p + u)) (Float.of_nat 100))
       ++ lit "%"
  /\ (secs <> [] ->
      format_output secs file_path = join [NL] (report_lines secs file_path)
      /\ format_output secs file_path
         = join [NL] (heading_lines secs file_path)
           ++ (if 0 <? c + i + p + u then [NL] ++ rate_line summary else [])
           ++ concat (map (fun sec => [NL] ++ str_of_section sec) secs))
  /\ (secs = [] -> c + i + p + u = 0
                   /\ format_output secs file_path = no_tasks_message file_path).
Proof.
  intros c i p u summary.
  assert (E : summary = summary_of c i p (c + i + p + u)).
  { unfold summary, c, i, p, u, count_status.
    rewrite count_in_partition. apply get_task_summary_counts. }
  split; [exact E|].
  split; [now rewrite E|]. split; [now rewrite E|].
  split; [now rewrite E|]. split; [now rewrite E|].
  split; [|split; [|split]].
  - unfold summary. rewrite rate_line_in_report. fold summary. now rewrite E.
  - unfold rate_line, completion_rate. now rewrite E.
  - intros Hne.
    assert (F : format_output secs file_path = join [NL] (report_lines secs file_path))
      by (unfold format_output; now destruct secs).
    split; [exact F|]. rewrite F.
    change (report_lines secs file_path)
      with (heading_lines secs file_path
            ++ (if 0 <? summary !!! "total" then [rate_line summary] else [])
            ++ map str_of_section secs).
    rewrite join_app by discriminate. f_equal.
    rewrite map_app, concat_app, map_map.
    replace (summary !!! "total") with (c + i + p + u) by now rewrite E.
    destruct (0 <? c + i + p + u); [|reflexivity].
    simpl. now rewrite app_nil_r.
  - intros ->. split; reflexivity.
Qed.

Lemma summary_and_rate_witness :
  format_output sample_sections [lit "TODO.md"]
  = join [NL] (report_lines sample_sections [lit "TODO.md"])
  /\ (In (rate_line (get_task_summary sample_sections))
         (report_lines sample_sections [lit "TODO.md"]) <-> 0 < 1 + 0 + 2 + 0).
Proof.
  destruct (summary_and_rate sample_sections [lit "TODO.md"])
    as (_ & _ & _ & _ & _ & Hin & _ & Hout & _).
  split; [apply Hout; discriminate | exact Hin].
Defined.

(* ===================================================================== *)
(** ** The round-trip document *)
(* ===================================================================== *)

(** C1, as stated, fails: the first header, [# Project], opens a section
    of its own, so the parse has three sections and not two. *)
Lemma sample_not_two_sections :
  ~ two_sections (parse_todo_file (fs_with sample_text) [lit "TODO.md"]).
Proof.
  intros (s1 & s2 & E & _). vm_compute in E. discriminate E.
Qed.

(** C1, amended. The six-line document parses to three sections: the
    empty section [Project] opened by the first header, then [Completed]
    with one Completed task and [Pending] with two Pending tasks; the
    summary is [{completed: 1, in_progress: 0, pending: 2, total: 3}] and
    the report shows a completion rate of 33.3%. *)
Theorem sample_round_trip :
  parse_todo_file (fs_with sample_text) [lit "TODO.md"] = sample_sections
  /\ parse_todo_file (fs_with sample_text_no_eol) [lit "TODO.md"] = sample_sections
  /\ map (fun sec => (title sec, map status (tasks sec))) sample_sections
     = [ (lit "Project", []);
         (lit "Completed", [COMPLETED]);
         (lit "Pending", [PENDING; PENDING]) ]
  /\ get_task_summary sample_sections = summary_of 1 0 2 3
  /\ rate_line (get_task_summary sample_sections)
     = lit "   " ++ [128200%N] ++ lit " Completion Rate: 33.3%"
  /\ In (rate_line (get_task_summary sample_sections))
        (report_lines sample_sections [lit "TODO.md"]).
Proof.
  repeat split; try (vm_compute; reflexivity).
  apply rate_line_in_report. vm_compute. lia.
Qed.

(* ===================================================================== *)
(** ** The file locator *)
(* ===================================================================== *)

Lemma path_eqb_posix_join (directory : Path) (a b : str) :
  path_eqb Posix (joinpath directory a) (joinpath directory b) = bool_decide (a = b).
Proof.
  unfold path_eqb, joinpath. apply bool_decide_ext. split.
  - intros H. apply app_inv_head in H. congruence.
  - now intros ->.
Qed.

Lemma path_eqb_windows_join (directory : Path) (a b : str) :
  lower a = lower b ->
  path_eqb Windows (joinpath directory a) (joinpath directory b) = true.
Proof.
  intros H. unfold path_eqb, joinpath. apply bool_decide_eq_true_2.
  rewrite !map_app. simpl. now rewrite H.
Qed.

(** Evaluates the comparisons of two literal names. *)
Ltac names_differ :=
  repeat match goal with
  | |- context [bool_decide (lit ?a = lit ?b)] =>
      let v := eval vm_compute in (bool_decide (lit a = lit b)) in
      change (bool_decide (lit a = lit b)) with v
  end.

Ltac posix_step :=
  cbn [existsb app andb negb]; rewrite ?path_eqb_posix_join; names_differ;
  cbn [orb negb andb app].

(** With POSIX paths the test [file_path not in todo_files] never fires:
    the names differ as strings, so every candidate that exists is
    returned, in the order of the checks. *)
Lemma find_todo_files_posix (fs : filesystem) (directory : Path) :
  find_todo_files Posix fs directory
  = List.filter (path_exists fs) (map (joinpath directory) candidates).
Proof.
  unfold find_todo_files, candidates, variations, add_variation, path_in.
  cbn [foldl map List.filter].
  destruct (path_exists fs (joinpath directory (lit "TODO.md")));
    destruct (path_exists fs (joinpath directory (lit "todo.md"))); posix_step;
    destruct (path_exists fs (joinpath directory (lit "TODO.MD"))); posix_step;
    destruct (path_exists fs (joinpath directory (lit "Todo.md"))); posix_step;
    destruct (path_exists fs (joinpath directory (lit "ToDo.md"))); posix_step;
    reflexivity.
Qed.

(** With Windows paths, which compare without case, the test fires as
    soon as one candidate was kept: at most one path is returned. *)
Lemma find_todo_files_windows (fs : filesystem) (directory : Path) :
  length (find_todo_files Windows fs directory) <= 1.
Proof.
  unfold find_todo_files, candidates, variations, add_variation, path_in.
  cbn [foldl].
  destruct (path_exists fs (joinpath directory (lit "TODO.md")));
    destruct (path_exists fs (joinpath directory (lit "todo.md")));
    cbn [existsb app andb negb];
    rewrite ?path_eqb_windows_join by reflexivity; cbn [orb andb negb app];
    destruct (path_exists fs (joinpath directory (lit "TODO.MD")));
    cbn [existsb app andb negb];
    rewrite ?path_eqb_windows_join by reflexivity; cbn [orb andb negb app];
    destruct (path_exists fs (joinpath directory (lit "Todo.md")));
    cbn [existsb app andb negb];
    rewrite ?path_eqb_windows_join by reflexivity; cbn [orb andb negb app];
    destruct (path_exists fs (joinpath directory (lit "ToDo.md")));
    cbn [existsb app andb negb];
    rewrite ?path_eqb_windows_join by reflexivity; cbn [orb andb negb app];
    simpl; lia.
Qed.
(** C8, evaluated where it fails. On a file system that ignores case,
    with POSIX paths, a directory holding the single file [TODO.md] gives
    five paths, one for each spelling, all leading to that one file: the
    paths are compared as they are spelt, not by the file they lead to. *)
Theorem find_todo_files_repeats_one_file :
  let fs := case_insensitive_fs [lit "project"; lit "TODO.md"] in
  let found := find_todo_files Posix fs [lit "project"] in
  found = map (joinpath [lit "project"]) candidates
  /\ map (inode_of fs) found = [Some 1; Some 1; Some 1; Some 1; Some 1]
  /\ ~ NoDup (map (inode_of fs) found).
Proof.
  repeat split; try (vm_compute; reflexivity).
  intros H. pose proof (bool_decide_eq_true_2 _ H) as B. vm_compute in B. discriminate B.
Qed.
